(** * Backward trajectories through CM1 output: a shallow embedding

    The notebook [backwards_trajectories_CM1_test2.ipynb] integrates parcel
    positions backwards through gridded model output.  This file embeds its
    cells as Rocq functions and states the properties of the integration
    loop.

    Numbers.  The notebook computes with numpy [float64].  The cells are
    embedded twice.  In the modules [Float], [Interp] and [Notebook] a
    number is an exact rational extended with the three IEEE special values
    (+inf, -inf, not-a-number); rounding, overflow and the sign of zero are
    not represented.  Not-a-number matters: it is the fill value of most of
    the interpolation calls and it propagates through the arithmetic.  The
    general statements are proved on this embedding: they say which
    operations a cell applies to which operands, where the fill values go
    and what is written where.  In the module [Binary64] the same cells
    compute with binary64 numbers (round to nearest even, as numpy does);
    what is said about the digits a run stores is evaluated there.

    Arrays.  A numpy array is a nested list.  The position arrays have
    shape (time_steps, num_seeds_z, num_seeds_y); a time slice [a[t,:,:]] is
    kept flattened in C order (parcel [p] is row [p / num_seeds_y], column
    [p mod num_seeds_y]), so that [flatten] and [np.reshape] are the
    identity on it. *)

From Stdlib Require Import QArith Qcanon Qround ZArith Lia.
From Stdlib Require Import Floats.PrimFloat Floats.SpecFloat Floats.FloatOps.
From Stdlib Require Import Numbers.Cyclic.Int63.Uint63.
From stdpp Require Import base option list numbers strings.

Local Open Scope Qc_scope.

(** ** Extended rationals standing for float64 *)

Module Float.

Inductive fnum : Type :=
  | Fin (q : Qc)
  | PInf
  | NInf
  | NaN.

Definition of_Z (n : Z) : fnum := Fin (Qc_of_Z n).
Definition half : fnum := Fin (Q2Qc (1 # 2)).
Definition zero : fnum := Fin 0.
Definition one : fnum := Fin 1.

Definition is_nan (a : fnum) : bool :=
  match a with NaN => true | _ => false end.

Definition is_finite (a : fnum) : bool :=
  match a with Fin _ => true | _ => false end.

Definition fneg (a : fnum) : fnum :=
  match a with
  | Fin q => Fin (- q)
  | PInf => NInf
  | NInf => PInf
  | NaN => NaN
  end.

Definition fadd (a b : fnum) : fnum :=
  match a, b with
  | NaN, _ | _, NaN => NaN
  | Fin p, Fin q => Fin (p + q)
  | PInf, NInf | NInf, PInf => NaN
  | PInf, _ | _, PInf => PInf
  | NInf, _ | _, NInf => NInf
  end.

Definition fsub (a b : fnum) : fnum := fadd a (fneg b).

(** An infinity with the sign of [q], or not-a-number when [q] is zero. *)
Definition signed_inf (q : Qc) (pos : fnum) (neg : fnum) : fnum :=
  match q ?= 0 with
  | Gt => pos
  | Lt => neg
  | Eq => NaN
  end.

Definition fmul (a b : fnum) : fnum :=
  match a, b with
  | NaN, _ | _, NaN => NaN
  | Fin p, Fin q => Fin (p * q)
  | Fin p, PInf | PInf, Fin p => signed_inf p PInf NInf
  | Fin p, NInf | NInf, Fin p => signed_inf p NInf PInf
  | PInf, PInf | NInf, NInf => PInf
  | PInf, NInf | NInf, PInf => NInf
  end.

(** Division by a zero follows IEEE for a positive zero: x/0 is an infinity
    with the sign of x, and 0/0 is not-a-number (numpy only warns). *)
Definition fdiv (a b : fnum) : fnum :=
  match a, b with
  | NaN, _ | _, NaN => NaN
  | Fin p, Fin q =>
      if decide (q = 0) then signed_inf p PInf NInf else Fin (p / q)
  | Fin _, (PInf | NInf) => Fin 0
  | PInf, Fin q => match q ?= 0 with Lt => NInf | _ => PInf end
  | NInf, Fin q => match q ?= 0 with Lt => PInf | _ => NInf end
  | (PInf | NInf), (PInf | NInf) => NaN
  end.

(** Comparisons; every comparison with not-a-number is false. *)
Definition flt (a b : fnum) : bool :=
  match a, b with
  | NaN, _ | _, NaN => false
  | Fin p, Fin q => bool_decide (p < q)
  | NInf, (Fin _ | PInf) => true
  | Fin _, PInf => true
  | _, _ => false
  end.

Definition fle (a b : fnum) : bool :=
  match a, b with
  | NaN, _ | _, NaN => false
  | Fin p, Fin q => bool_decide (p ≤ q)
  | NInf, _ => true
  | _, PInf => true
  | _, _ => false
  end.

Definition fgt (a b : fnum) : bool := flt b a.
Definition fge (a b : fnum) : bool := fle b a.

(** [np.maximum(a, lo)], which is what [ndarray.clip(min=lo)] computes:
    not-a-number is passed through. *)
Definition clip_min (lo a : fnum) : fnum :=
  if is_nan a then NaN else if flt a lo then lo else a.

End Float.

Export Float.

Declare Scope fnum_scope.
Delimit Scope fnum_scope with F.
Bind Scope fnum_scope with fnum.
Infix "+" := fadd : fnum_scope.
Infix "-" := fsub : fnum_scope.
Infix "*" := fmul : fnum_scope.
Infix "/" := fdiv : fnum_scope.

Global Instance fnum_inhabited : Inhabited fnum := populate NaN.
Global Instance fnum_eq_dec : EqDecision fnum.
Proof. solve_decision. Defined.

(** ** [scipy.interpolate.interpn], linear method, on index grids

    Every grid the notebook passes is [np.arange(0, n, 1)] along each axis
    (cell 4), so a grid is given by its sizes.  The definitions follow
    [RegularGridInterpolator]: [_find_indices], [_evaluate_linear] and the
    fill of out-of-bounds results in [__call__].  Arrays are taken to have
    the shape of the grid (scipy refuses any other), an axis to have at
    least two points and a batch of query points not to be empty. *)

Module Interp.

Local Open Scope Z_scope.

Abbreviation field3 := (list (list (list fnum))) (only parsing).
Abbreviation field2 := (list (list fnum)) (only parsing).
Abbreviation coord3 := (fnum * fnum * fnum)%type (only parsing).
Abbreviation coord2 := (fnum * fnum)%type (only parsing).

(** [grid[i]] for [grid = np.arange(0, n, 1)]. *)
Definition grid_point (i : Z) : fnum := of_Z i.

(** [np.searchsorted(grid, c)]: how many grid points lie strictly below
    [c]; numpy orders not-a-number after every number. *)
Definition searchsorted (n : nat) (c : fnum) : Z :=
  match c with
  | Fin q => if decide (q ≤ 0)%Qc then 0 else Z.min (Z.of_nat n) (Qceiling q)
  | NInf => 0
  | PInf | NaN => Z.of_nat n
  end.

(** [i = searchsorted(grid, x) - 1; i[i < 0] = 0; i[i > grid.size - 2] =
    grid.size - 2]. *)
Definition find_index (n : nat) (c : fnum) : Z :=
  let i := searchsorted n c - 1 in
  let i := if i <? 0 then 0 else i in
  if i >? Z.of_nat n - 2 then Z.of_nat n - 2 else i.

(** [(x - grid[i]) / (grid[i + 1] - grid[i])]. *)
Definition norm_distance (c : fnum) (i : Z) : fnum :=
  ((c - grid_point i) / (grid_point (i + 1) - grid_point i))%F.

(** [x < grid[0]] or [x > grid[-1]]. *)
Definition out_of_bounds (n : nat) (c : fnum) : bool :=
  flt c (grid_point 0) || fgt c (grid_point (Z.of_nat n - 1)).

(** The test of [bounds_error=True]: [grid[0] <= p] and [p <= grid[-1]]. *)
Definition in_range (n : nat) (c : fnum) : bool :=
  fle (grid_point 0) c && fle c (grid_point (Z.of_nat n - 1)).

(** [np.where(ei == i, 1 - yi, yi)]. *)
Definition edge_weight (ei i : Z) (yi : fnum) : fnum :=
  if ei =? i then (one - yi)%F else yi.

Definition get3 (values : field3) (k j i : Z) : fnum :=
  ((values !!! Z.to_nat k) !!! Z.to_nat j) !!! Z.to_nat i.

Definition get2 (values : field2) (j i : Z) : fnum :=
  (values !!! Z.to_nat j) !!! Z.to_nat i.

(** [itertools.product] of the pairs [[i, i + 1]], one pair per axis. *)
Definition edges3 (iz iy ix : Z) : list (Z * Z * Z) :=
  ez ← [iz; iz + 1]; ey ← [iy; iy + 1]; ex ← [ix; ix + 1]; [(ez, ey, ex)].

Definition edges2 (iy ix : Z) : list (Z * Z) :=
  ey ← [iy; iy + 1]; ex ← [ix; ix + 1]; [(ey, ex)].

(** [_evaluate_linear]: [values = 0.], then for every corner
    [weight = 1.], [weight *= where(...)] per axis, and
    [values += self.values[edge_indices] * weight]. *)
Definition evaluate_linear3 (shape : nat * nat * nat) (values : field3)
    (c : coord3) : fnum :=
  let '(nz, ny, nx) := shape in
  let '(cz, cy, cx) := c in
  let iz := find_index nz cz in
  let iy := find_index ny cy in
  let ix := find_index nx cx in
  let yz := norm_distance cz iz in
  let yy := norm_distance cy iy in
  let yx := norm_distance cx ix in
  foldl (λ acc '(ez, ey, ex),
           let weight :=
             (one * edge_weight ez iz yz * edge_weight ey iy yy
                  * edge_weight ex ix yx)%F in
           (acc + get3 values ez ey ex * weight)%F)
        zero (edges3 iz iy ix).

Definition evaluate_linear2 (shape : nat * nat) (values : field2)
    (c : coord2) : fnum :=
  let '(ny, nx) := shape in
  let '(cy, cx) := c in
  let iy := find_index ny cy in
  let ix := find_index nx cx in
  let yy := norm_distance cy iy in
  let yx := norm_distance cx ix in
  foldl (λ acc '(ey, ex),
           let weight :=
             (one * edge_weight ey iy yy * edge_weight ex ix yx)%F in
           (acc + get2 values ey ex * weight)%F)
        zero (edges2 iy ix).

Definition out_of_bounds3 (shape : nat * nat * nat) (c : coord3) : bool :=
  let '(nz, ny, nx) := shape in
  let '(cz, cy, cx) := c in
  out_of_bounds nz cz || out_of_bounds ny cy || out_of_bounds nx cx.

Definition out_of_bounds2 (shape : nat * nat) (c : coord2) : bool :=
  let '(ny, nx) := shape in
  let '(cy, cx) := c in
  out_of_bounds ny cy || out_of_bounds nx cx.

Definition in_range3 (shape : nat * nat * nat) (c : coord3) : bool :=
  let '(nz, ny, nx) := shape in
  let '(cz, cy, cx) := c in
  in_range nz cz && in_range ny cy && in_range nx cx.

Definition in_range2 (shape : nat * nat) (c : coord2) : bool :=
  let '(ny, nx) := shape in
  let '(cy, cx) := c in
  in_range ny cy && in_range nx cx.

(** One query point of a call with [bounds_error=False].  A point that is
    not-a-number on one axis and out of bounds on another gets the fill
    value, as in the scipy releases of the notebook's time; later releases
    return not-a-number for it.  The statements below that concern the fill
    value are about points whose coordinates are all numbers. *)
Definition sample3 (shape : nat * nat * nat) (values : field3)
    (fill_value : fnum) (c : coord3) : fnum :=
  if out_of_bounds3 shape c then fill_value
  else evaluate_linear3 shape values c.

Definition sample2 (shape : nat * nat) (values : field2)
    (fill_value : fnum) (c : coord2) : fnum :=
  if out_of_bounds2 shape c then fill_value
  else evaluate_linear2 shape values c.

(** [interpn(grid, values, xi, method='linear', bounds_error, fill_value)]
    on a batch of points; [None] is the [ValueError] that
    [bounds_error=True] raises when a point is out of bounds. *)
Definition interpn3 (shape : nat * nat * nat) (values : field3)
    (xi : list coord3) (bounds_error : bool) (fill_value : fnum)
    : option (list fnum) :=
  if bounds_error && negb (forallb (in_range3 shape) xi) then None
  else Some (sample3 shape values fill_value <$> xi).

Definition interpn2 (shape : nat * nat) (values : field2)
    (xi : list coord2) (bounds_error : bool) (fill_value : fnum)
    : option (list fnum) :=
  if bounds_error && negb (forallb (in_range2 shape) xi) then None
  else Some (sample2 shape values fill_value <$> xi).

End Interp.

Export Interp.

(** ** The notebook *)

Module Notebook.

(** What the notebook reads from the xarray dataset [ds] (cells 4, 11, 17
    and 19).  A time-dependent variable is a function of the time index:
    the velocities and the tracked variable are taken to be present in the
    output, with a snapshot at every time index the loop asks for (the
    [IndexError] of an index beyond the time axis and the [AttributeError]
    of a missing variable are not represented).  [zs] is [None] when the
    output has no terrain variable, which is the case the [try]/[except]
    of cell 19 catches. *)
Record Dataset : Type := {
  nx : nat;
  ny : nat;
  nz : nat;
  xf : list fnum;
  time : list fnum;
  zh : field3;
  zs : option field2;
  uinterp : Z → field3;
  vinterp : Z → field3;
  winterp : Z → field3;
  scalar : string → Z → field3
}.

(** The values cell 9 and cell 15 mark as set by the user.  Cell 15 gives
    every seed the same x, makes y a function of the horizontal seed number
    and z a function of the vertical seed number. *)
Record Config : Type := {
  num_seeds_z : nat;
  num_seeds_y : nat;
  time_steps : nat;
  start_time_step : Z;
  var_name1 : string;
  staggered : string;
  seed_x : fnum;
  seed_y : nat → fnum;
  seed_z : nat → fnum
}.

(** The values as the notebook has them: one level of 50 parcels at
    x = 2900, y = 350, 354, ..., z = 2, traced back over 150 time slices
    from time index 240, recording ['th'], velocities not staggered. *)
Definition as_published : Config := {|
  num_seeds_z := 1;
  num_seeds_y := 50;
  time_steps := 150;
  start_time_step := 240;
  var_name1 := "th";
  staggered := "N";
  seed_x := of_Z 2900;
  seed_y := λ i, of_Z (350 + 4 * Z.of_nat i);
  seed_z := λ _, of_Z 2 |}.

(** Cell 11. *)
Record ModelInfo : Type := {
  hor_resolution : fnum;
  vert_resolution : field3;
  time_step_length : fnum
}.

(** The arrays of cell 13, and the variable [var1] that the loop of cell 19
    leaves behind for cell 21 ([None] while it is unbound). *)
Record State : Type := {
  xpos : list (list fnum);
  ypos : list (list fnum);
  zpos : list (list fnum);
  zpos_heightASL : list (list fnum);
  zpos_vert_res : list (list fnum);
  variable1 : list (list fnum);
  var1 : option field3
}.

(** [a[1:] - a[:-1]] along the first axis. *)
Definition diff_levels (a : field3) : field3 :=
  zip_with (zip_with (zip_with fsub)) (drop 1 a) (take (length a - 1) a).

(** Cell 11; [None] is the [IndexError] of a coordinate with fewer than two
    entries. *)
Definition model_output_info (ds : Dataset) : option ModelInfo :=
  xf1 ← xf ds !! 1%nat;
  xf0 ← xf ds !! 0%nat;
  time1 ← time ds !! 1%nat;
  time0 ← time ds !! 0%nat;
  Some {| hor_resolution := ((xf1 - xf0) * of_Z 1000)%F;
          vert_resolution := diff_levels (zh ds);
          time_step_length := ((time1 - time0) / one)%F |}.

(** [a - 0.5] on a flattened slice. *)
Definition minus_half (a : list fnum) : list fnum :=
  (λ v, (v - half)%F) <$> a.

(** The loops [for i in range(len(xloc)): coord.append((..[i], ..[i],
    ..[i]))], with [n = len(xloc)]; the slices of one time index have the
    same length. *)
Definition coords3 (n : nat) (zl yl xl : list fnum) : list coord3 :=
  (λ i, (zl !!! i, yl !!! i, xl !!! i)) <$> seq 0 n.

Definition coords2 (n : nat) (yl xl : list fnum) : list coord2 :=
  (λ i, (yl !!! i, xl !!! i)) <$> seq 0 n.

Section Run.

Context (cfg : Config) (ds : Dataset).

Definition num_parcels : nat := (num_seeds_z cfg * num_seeds_y cfg)%nat.

Definition grid_shape : nat * nat * nat := (nz ds, ny ds, nx ds).

(** Cell 13: [np.zeros((time_steps, num_seeds_z, num_seeds_y))]. *)
Definition zeros : list (list fnum) :=
  replicate (time_steps cfg) (replicate num_parcels zero).

(** Cells 13 and 15.  [xpos[0,:,:] = ...] raises [IndexError] on an array
    without a first time slice. *)
Definition initialize_parcels : option State :=
  if decide (time_steps cfg = 0%nat) then None
  else
    let parcels := seq 0 num_parcels in
    Some {|
      xpos := <[0%nat := (λ _, seed_x cfg) <$> parcels]> zeros;
      ypos := <[0%nat := (λ p, seed_y cfg (p mod num_seeds_y cfg)%nat)
                          <$> parcels]> zeros;
      zpos := <[0%nat := (λ p, seed_z cfg (p / num_seeds_y cfg)%nat)
                          <$> parcels]> zeros;
      zpos_heightASL := zeros;
      zpos_vert_res := zeros;
      variable1 := zeros;
      var1 := None |}.

(** Cell 17: the height above sea level of the seeds. *)
Definition initial_height (st : State) : option State :=
  let xloc := minus_half (xpos st !!! 0%nat) in
  let yloc := minus_half (ypos st !!! 0%nat) in
  let zloc := minus_half (zpos st !!! 0%nat) in
  let coord_height := coords3 (length xloc) zloc yloc xloc in
  h ← interpn3 grid_shape (zh ds) coord_height false zero;
  Some {| xpos := xpos st; ypos := ypos st; zpos := zpos st;
          zpos_heightASL := <[0%nat := h]> (zpos_heightASL st);
          zpos_vert_res := zpos_vert_res st;
          variable1 := variable1 st;
          var1 := var1 st |}.

(** The surface height grid of cell 19: [ds.zs], or zeros without
    terrain. *)
Definition surface_grid : field2 :=
  default (replicate (ny ds) (replicate (nx ds) zero)) (zs ds).

Definition stagger_on : bool := String.eqb (staggered cfg) "Y".

(** The three coordinate lists of one pass of the loop, from the slices
    [xpos[t]], [ypos[t]], [zpos[t]]. *)
Definition velocity_coords (xs ys zl : list fnum)
    : list coord3 * list coord3 * list coord3 :=
  let xloc := minus_half xs in
  let xloc_stag := xs in
  let yloc := minus_half ys in
  let yloc_stag := ys in
  let zloc := minus_half zl in
  let zloc_stag := zl in
  let n := length xloc in
  if stagger_on then
    (coords3 n zloc yloc xloc_stag,
     coords3 n zloc yloc_stag xloc,
     coords3 n zloc_stag yloc xloc)
  else
    (coords3 n zloc yloc xloc,
     coords3 n zloc yloc xloc,
     coords3 n zloc yloc xloc).

(** The floor of [zpos.clip(min=...)]. *)
Definition zpos_min : fnum := if stagger_on then half else zero.

Section Step.

Context (info : ModelInfo).

(** One pass of the loop of cell 19. *)
Definition step (t : nat) (st : State) : option State :=
  let tidx := (start_time_step cfg - Z.of_nat t)%Z in
  let u := uinterp ds tidx in
  let v := vinterp ds tidx in
  let w := winterp ds tidx in
  let var1' := scalar ds (var_name1 cfg) tidx in
  let zs := surface_grid in
  let xs := xpos st !!! t in
  let ys := ypos st !!! t in
  let zs_t := zpos st !!! t in
  let '(coord_u, coord_v, coord_w) := velocity_coords xs ys zs_t in
  let coord :=
    coords3 (length xs) (minus_half zs_t) (minus_half ys) (minus_half xs) in
  let dt := time_step_length info in
  let dx := hor_resolution info in
  ui ← interpn3 grid_shape u coord_u false NaN;
  let xpos' :=
    <[S t := zip_with (λ x a, (x - a * dt / dx)%F) xs ui]> (xpos st) in
  vi ← interpn3 grid_shape v coord_v false NaN;
  let ypos' :=
    <[S t := zip_with (λ y a, (y - a * dt / dx)%F) ys vi]> (ypos st) in
  wi ← interpn3 grid_shape w coord_w false zero;
  let height' :=
    <[S t := zip_with (λ h a, (h - a * dt)%F) (zpos_heightASL st !!! t) wi]>
      (zpos_heightASL st) in
  res ← interpn3 ((nz ds - 1)%nat, ny ds, nx ds) (vert_resolution info)
                 coord false NaN;
  let vert_res' := <[t := res]> (zpos_vert_res st) in
  let xloc := minus_half (xpos' !!! S t) in
  let yloc := minus_half (ypos' !!! S t) in
  let coord_zs := coords2 (length xloc) yloc xloc in
  surface_height ← interpn2 (ny ds, nx ds) zs coord_zs false NaN;
  let zpos' :=
    <[S t := zip_with fdiv
               (zip_with fsub (height' !!! S t) surface_height)
               (vert_res' !!! t)]> (zpos st) in
  let zpos'' := (λ row : list fnum, clip_min zpos_min <$> row) <$> zpos' in
  vals ← interpn3 grid_shape var1' coord false NaN;
  Some {| xpos := xpos'; ypos := ypos'; zpos := zpos'';
          zpos_heightASL := height';
          zpos_vert_res := vert_res';
          variable1 := <[t := vals]> (variable1 st);
          var1 := Some var1' |}.

(** [for t in range(n): ...], the passes [0 .. n-1] in order. *)
Fixpoint calculate_trajectories (n : nat) (st : State) : option State :=
  match n with
  | O => Some st
  | S k => calculate_trajectories k st ≫= step k
  end.

End Step.

(** Cell 21: the tracked variable at the last time slice.  [var1] is read as
    the loop left it; it is unbound ([NameError]) if the loop made no
    pass. *)
Definition final_time_step (st : State) : option State :=
  let t := (time_steps cfg - 1)%nat in
  let xloc := minus_half (xpos st !!! t) in
  let yloc := minus_half (ypos st !!! t) in
  let zloc := minus_half (zpos st !!! t) in
  let coord := coords3 (length xloc) zloc yloc xloc in
  field ← var1 st;
  vals ← interpn3 grid_shape field coord false NaN;
  Some {| xpos := xpos st; ypos := ypos st; zpos := zpos st;
          zpos_heightASL := zpos_heightASL st;
          zpos_vert_res := zpos_vert_res st;
          variable1 := <[t := vals]> (variable1 st);
          var1 := var1 st |}.

(** Cells 11 to 21 in order. *)
Definition run : option State :=
  info ← model_output_info ds;
  st ← initialize_parcels;
  st ← initial_height st;
  st ← calculate_trajectories info (time_steps cfg - 1) st;
  final_time_step st.

End Run.

End Notebook.

Export Notebook.

(** * Vocabulary of the statements *)

Section Vocabulary.

Local Open Scope Z_scope.

(** The weighted sum over the eight corners, in the order of the loop. *)
Definition trilinear (g : Z → Z → Z → Qc) (iz iy ix : Z) (dz dy dx : Qc)
    : Qc :=
  (0 + g iz iy ix * (1 * (1 - dz) * (1 - dy) * (1 - dx))
     + g iz iy (ix + 1)%Z * (1 * (1 - dz) * (1 - dy) * dx)
     + g iz (iy + 1)%Z ix * (1 * (1 - dz) * dy * (1 - dx))
     + g iz (iy + 1)%Z (ix + 1)%Z * (1 * (1 - dz) * dy * dx)
     + g (iz + 1)%Z iy ix * (1 * dz * (1 - dy) * (1 - dx))
     + g (iz + 1)%Z iy (ix + 1)%Z * (1 * dz * (1 - dy) * dx)
     + g (iz + 1)%Z (iy + 1)%Z ix * (1 * dz * dy * (1 - dx))
     + g (iz + 1)%Z (iy + 1)%Z (ix + 1)%Z * (1 * dz * dy * dx))%Qc.

Definition bilinear (g : Z → Z → Qc) (iy ix : Z) (dy dx : Qc) : Qc :=
  (0 + g iy ix * (1 * (1 - dy) * (1 - dx))
     + g iy (ix + 1)%Z * (1 * (1 - dy) * dx)
     + g (iy + 1)%Z ix * (1 * dy * (1 - dx))
     + g (iy + 1)%Z (ix + 1)%Z * (1 * dy * dx))%Qc.

Definition has_shape2 (shape : nat * nat) (a : field2) : bool :=
  bool_decide (length a = shape.1)
  && forallb (λ row, bool_decide (length row = shape.2)) a.

Definition has_shape3 (shape : nat * nat * nat) (a : field3) : bool :=
  bool_decide (length a = shape.1.1)
  && forallb (has_shape2 (shape.1.2, shape.2)) a.

Definition all_finite2 (a : field2) : bool := forallb (forallb is_finite) a.

Definition all_finite3 (a : field3) : bool := forallb all_finite2 a.

(** The rational stored at an index (0 where the entry is not finite). *)
Definition value_of (a : fnum) : Qc :=
  match a with Fin q => q | _ => 0%Qc end.

(** [a[t, p]] for a position array and a flattened parcel number. *)
Definition entry (a : list (list fnum)) (t p : nat) : fnum :=
  (a !!! t) !!! p.

(** [np.full(shape, v)]. *)
Definition full3 (shape : nat * nat * nat) (v : fnum) : field3 :=
  replicate shape.1.1 (replicate shape.1.2 (replicate shape.2 v)).

Definition full2 (shape : nat * nat) (v : fnum) : field2 :=
  replicate shape.1 (replicate shape.2 v).

(** Every array of the state has [time_steps] slices of [num_parcels]
    entries, as cell 13 allocates them. *)
Definition well_shaped (cfg : Config) (st : State) : bool :=
  let shape := (time_steps cfg, num_parcels cfg) in
  has_shape2 shape (xpos st) && has_shape2 shape (ypos st)
  && has_shape2 shape (zpos st) && has_shape2 shape (zpos_heightASL st)
  && has_shape2 shape (zpos_vert_res st) && has_shape2 shape (variable1 st).

(** The entries for parcel [p] of the lists [coord_u], [coord_v], [coord_w]
    and [coord] that pass [t] of the loop builds from the state [st]. *)
Definition coord_u (cfg : Config) (st : State) (t p : nat) : coord3 :=
  (velocity_coords cfg (xpos st !!! t) (ypos st !!! t) (zpos st !!! t)).1.1
    !!! p.

Definition coord_v (cfg : Config) (st : State) (t p : nat) : coord3 :=
  (velocity_coords cfg (xpos st !!! t) (ypos st !!! t) (zpos st !!! t)).1.2
    !!! p.

Definition coord_w (cfg : Config) (st : State) (t p : nat) : coord3 :=
  (velocity_coords cfg (xpos st !!! t) (ypos st !!! t) (zpos st !!! t)).2
    !!! p.

Definition coord (st : State) (t p : nat) : coord3 :=
  coords3 (length (xpos st !!! t)) (minus_half (zpos st !!! t))
    (minus_half (ypos st !!! t)) (minus_half (xpos st !!! t)) !!! p.

Definition has_nan3 (c : coord3) : bool :=
  is_nan c.1.1 || is_nan c.1.2 || is_nan c.2.

(** The two conversions between vertical index and height, for one parcel.
    [height_from_index] is the interpolation of cell 17 at the parcel's
    query point [c]; [index_from_height] is the quotient of cell 19, with
    the vertical spacing interpolated at [c] and the surface height at the
    horizontal point [c_zs]. *)
Definition height_from_index (ds : Dataset) (c : coord3) : fnum :=
  sample3 (grid_shape ds) (zh ds) zero c.

Definition index_from_height (ds : Dataset) (info : ModelInfo) (h : fnum)
    (c : coord3) (c_zs : coord2) : fnum :=
  ((h - sample2 (ny ds, nx ds) (surface_grid ds) NaN c_zs)
   / sample3 ((nz ds - 1)%nat, ny ds, nx ds) (vert_resolution info) NaN c)%F.

(** The state at the start of pass [t]: cells 13 to 17 and the passes
    [0 .. t-1]. *)
Definition state_before (cfg : Config) (ds : Dataset) (info : ModelInfo)
    (t : nat) : option State :=
  st ← initialize_parcels cfg;
  st ← initial_height ds st;
  calculate_trajectories cfg ds info t st.

(** The configuration with another value of the stagger flag. *)
Definition with_staggered (flag : string) (cfg : Config) : Config := {|
  num_seeds_z := num_seeds_z cfg;
  num_seeds_y := num_seeds_y cfg;
  time_steps := time_steps cfg;
  start_time_step := start_time_step cfg;
  var_name1 := var_name1 cfg;
  staggered := flag;
  seed_x := seed_x cfg;
  seed_y := seed_y cfg;
  seed_z := seed_z cfg |}.

End Vocabulary.

(** * Test domains

    The end-to-end scenario of the specification: one parcel seeded at
    (x, y, z) = (10, 10, 2), levels 100 m apart, 1000 m between grid points,
    u = 10 m/s, v = w = 0, output every 60 s, five time slices, velocities
    on the scalar grid.  The domain has 4 x 16 x 16 points; the tracked
    scalar at time index [i] is [i] everywhere. *)

Module Scenario.

Definition shape : nat * nat * nat := (4%nat, 16%nat, 16%nat).

(** Level heights that do not vary horizontally. *)
Definition levels (heights : list fnum) : field3 :=
  (λ h, full2 (16%nat, 16%nat) h) <$> heights.

Definition flat : Dataset := {|
  nx := 16; ny := 16; nz := 4;
  xf := [of_Z 0; of_Z 1];
  time := [of_Z 0; of_Z 60];
  zh := levels [of_Z 50; of_Z 150; of_Z 250; of_Z 350];
  zs := None;
  uinterp := λ _, full3 shape (of_Z 10);
  vinterp := λ _, full3 shape zero;
  winterp := λ _, full3 shape zero;
  scalar := λ _ i, full3 shape (of_Z i) |}.

(** The same over a plateau 500 m high. *)
Definition plateau : Dataset := {|
  nx := 16; ny := 16; nz := 4;
  xf := [of_Z 0; of_Z 1];
  time := [of_Z 0; of_Z 60];
  zh := levels [of_Z 550; of_Z 650; of_Z 750; of_Z 850];
  zs := Some (full2 (16%nat, 16%nat) (of_Z 500));
  uinterp := λ _, full3 shape (of_Z 10);
  vinterp := λ _, full3 shape zero;
  winterp := λ _, full3 shape zero;
  scalar := λ _ i, full3 shape (of_Z i) |}.

(** A stretched grid: levels at 50, 150, 350 and 750 m, no wind. *)
Definition stretched : Dataset := {|
  nx := 16; ny := 16; nz := 4;
  xf := [of_Z 0; of_Z 1];
  time := [of_Z 0; of_Z 60];
  zh := levels [of_Z 50; of_Z 150; of_Z 350; of_Z 750];
  zs := None;
  uinterp := λ _, full3 shape zero;
  vinterp := λ _, full3 shape zero;
  winterp := λ _, full3 shape zero;
  scalar := λ _ i, full3 shape (of_Z i) |}.

(** The flat domain with an updraft of 1 m/s everywhere. *)
Definition updraft : Dataset := {|
  nx := 16; ny := 16; nz := 4;
  xf := [of_Z 0; of_Z 1];
  time := [of_Z 0; of_Z 60];
  zh := levels [of_Z 50; of_Z 150; of_Z 250; of_Z 350];
  zs := None;
  uinterp := λ _, full3 shape (of_Z 10);
  vinterp := λ _, full3 shape zero;
  winterp := λ _, full3 shape (of_Z 1);
  scalar := λ _ i, full3 shape (of_Z i) |}.

(** A domain that ends just east of the seed (11 points in x), with a
    wind of 10 m/s from the east. *)
Definition edge : Dataset := {|
  nx := 11; ny := 16; nz := 4;
  xf := [of_Z 0; of_Z 1];
  time := [of_Z 0; of_Z 60];
  zh := (λ h, full2 (16%nat, 11%nat) h)
          <$> [of_Z 50; of_Z 150; of_Z 250; of_Z 350];
  zs := None;
  uinterp := λ _, full3 (4%nat, 16%nat, 11%nat) (of_Z (-10));
  vinterp := λ _, full3 (4%nat, 16%nat, 11%nat) zero;
  winterp := λ _, full3 (4%nat, 16%nat, 11%nat) zero;
  scalar := λ _ i, full3 (4%nat, 16%nat, 11%nat) (of_Z i) |}.

Definition one_parcel (flag : string) (z : fnum) : Config := {|
  num_seeds_z := 1;
  num_seeds_y := 1;
  time_steps := 5;
  start_time_step := 10;
  var_name1 := "th";
  staggered := flag;
  seed_x := of_Z 10;
  seed_y := λ _, of_Z 10;
  seed_z := λ _, z |}.

(** What cell 11 computes on these datasets. *)
Definition info (ds : Dataset) : ModelInfo := {|
  hor_resolution := of_Z 1000;
  vert_resolution := diff_levels (zh ds);
  time_step_length := of_Z 60 |}.

Definition blank : State := {|
  xpos := []; ypos := []; zpos := []; zpos_heightASL := [];
  zpos_vert_res := []; variable1 := []; var1 := None |}.

(** The state after cells 13 to 17, and after [n] passes of the loop. *)
Definition seeded (cfg : Config) (ds : Dataset) : State :=
  default blank (initialize_parcels cfg ≫= initial_height ds).

Definition after (n : nat) (cfg : Config) (ds : Dataset) : State :=
  default blank (calculate_trajectories cfg ds (info ds) n (seeded cfg ds)).

(** The state a run ends with. *)
Definition finished (cfg : Config) (ds : Dataset) : State :=
  default blank (run cfg ds).

(** A 3 x 3 x 3 field with the entry 9k + 3j + i at index (k, j, i). *)
Definition cube : field3 :=
  (λ k : Z, (λ j : Z, (λ i : Z, of_Z (9 * k + 3 * j + i)) <$> [0; 1; 2]%Z)
              <$> [0; 1; 2]%Z) <$> [0; 1; 2]%Z.

(** The same field with a missing value, not-a-number, at index
    (0, 0, 0). *)
Definition cube_with_gap : field3 :=
  (λ k : Z,
     (λ j : Z,
        (λ i : Z,
           if (k =? 0)%Z && (j =? 0)%Z && (i =? 0)%Z then NaN
           else of_Z (9 * k + 3 * j + i)) <$> [0; 1; 2]%Z)
       <$> [0; 1; 2]%Z) <$> [0; 1; 2]%Z.

(** The parcel of the scenario seeded one grid unit from the western
    edge. *)
Definition western_parcel : Config := {|
  num_seeds_z := 1;
  num_seeds_y := 1;
  time_steps := 5;
  start_time_step := 10;
  var_name1 := "th";
  staggered := "N";
  seed_x := of_Z 1;
  seed_y := λ _, of_Z 10;
  seed_z := λ _, of_Z 2 |}.

(** The parcel of the scenario with a single time slice asked for. *)
Definition single_slice : Config := {|
  num_seeds_z := 1;
  num_seeds_y := 1;
  time_steps := 1;
  start_time_step := 10;
  var_name1 := "th";
  staggered := "N";
  seed_x := of_Z 10;
  seed_y := λ _, of_Z 10;
  seed_z := λ _, of_Z 2 |}.

End Scenario.

(** * The cells in binary64

    The same cells once more, computing as numpy does: a number is a
    binary64 float and every operation rounds to the nearest one.  The
    definitions are those of [Interp] and [Notebook] above with the
    arithmetic exchanged; only the calls the notebook makes are embedded
    ([bounds_error=False] throughout). *)

#[local] Set Warnings "-inexact-float".

Module Binary64.

Local Open Scope Z_scope.

Abbreviation field3 := (list (list (list float))) (only parsing).
Abbreviation field2 := (list (list float)) (only parsing).
Abbreviation coord3 := (float * float * float)%type (only parsing).
Abbreviation coord2 := (float * float)%type (only parsing).

Global Instance float_inhabited : Inhabited float := populate PrimFloat.nan.

(** [grid[i]] for [grid = np.arange(0, n, 1)], converted to float64 by the
    arithmetic that uses it. *)
Definition grid_point (i : Z) : float := PrimFloat.of_uint63 (Uint63.of_Z i).

(** [np.searchsorted(grid, c)]: how many grid points lie strictly below
    [c]; numpy orders not-a-number after every number. *)
Definition searchsorted (n : nat) (c : float) : Z :=
  if PrimFloat.is_nan c then Z.of_nat n
  else
    Z.of_nat
      (length (List.filter (λ i : nat, (grid_point (Z.of_nat i) <? c)%float)
                 (seq 0 n))).

(** [i = searchsorted(grid, x) - 1; i[i < 0] = 0; i[i > grid.size - 2] =
    grid.size - 2]. *)
Definition find_index (n : nat) (c : float) : Z :=
  let i := searchsorted n c - 1 in
  let i := if i <? 0 then 0 else i in
  if i >? Z.of_nat n - 2 then Z.of_nat n - 2 else i.

(** [(x - grid[i]) / (grid[i + 1] - grid[i])]. *)
Definition norm_distance (c : float) (i : Z) : float :=
  ((c - grid_point i) / (grid_point (i + 1) - grid_point i))%float.

(** [x < grid[0]] or [x > grid[-1]]. *)
Definition out_of_bounds (n : nat) (c : float) : bool :=
  (c <? grid_point 0)%float || (grid_point (Z.of_nat n - 1) <? c)%float.

(** [np.where(ei == i, 1 - yi, yi)]. *)
Definition edge_weight (ei i : Z) (yi : float) : float :=
  if ei =? i then (1 - yi)%float else yi.

Definition get3 (values : field3) (k j i : Z) : float :=
  ((values !!! Z.to_nat k) !!! Z.to_nat j) !!! Z.to_nat i.

Definition get2 (values : field2) (j i : Z) : float :=
  (values !!! Z.to_nat j) !!! Z.to_nat i.

(** [_evaluate_linear]: [values = 0.], then for every corner
    [weight = 1.], [weight *= where(...)] per axis, and
    [values += self.values[edge_indices] * weight]. *)
Definition evaluate_linear3 (shape : nat * nat * nat) (values : field3)
    (c : coord3) : float :=
  let '(nz, ny, nx) := shape in
  let '(cz, cy, cx) := c in
  let iz := find_index nz cz in
  let iy := find_index ny cy in
  let ix := find_index nx cx in
  let yz := norm_distance cz iz in
  let yy := norm_distance cy iy in
  let yx := norm_distance cx ix in
  foldl (λ acc '(ez, ey, ex),
           let weight :=
             (1 * edge_weight ez iz yz * edge_weight ey iy yy
                * edge_weight ex ix yx)%float in
           (acc + get3 values ez ey ex * weight)%float)
        0%float (edges3 iz iy ix).

Definition evaluate_linear2 (shape : nat * nat) (values : field2)
    (c : coord2) : float :=
  let '(ny, nx) := shape in
  let '(cy, cx) := c in
  let iy := find_index ny cy in
  let ix := find_index nx cx in
  let yy := norm_distance cy iy in
  let yx := norm_distance cx ix in
  foldl (λ acc '(ey, ex),
           let weight :=
             (1 * edge_weight ey iy yy * edge_weight ex ix yx)%float in
           (acc + get2 values ey ex * weight)%float)
        0%float (edges2 iy ix).

Definition out_of_bounds3 (shape : nat * nat * nat) (c : coord3) : bool :=
  let '(nz, ny, nx) := shape in
  let '(cz, cy, cx) := c in
  out_of_bounds nz cz || out_of_bounds ny cy || out_of_bounds nx cx.

Definition out_of_bounds2 (shape : nat * nat) (c : coord2) : bool :=
  let '(ny, nx) := shape in
  let '(cy, cx) := c in
  out_of_bounds ny cy || out_of_bounds nx cx.

(** [interpn(grid, values, xi, method='linear', bounds_error=False,
    fill_value)] on a batch of points. *)
Definition interpn3 (shape : nat * nat * nat) (values : field3)
    (xi : list coord3) (fill_value : float) : list float :=
  (λ c, if out_of_bounds3 shape c then fill_value
        else evaluate_linear3 shape values c) <$> xi.

Definition interpn2 (shape : nat * nat) (values : field2)
    (xi : list coord2) (fill_value : float) : list float :=
  (λ c, if out_of_bounds2 shape c then fill_value
        else evaluate_linear2 shape values c) <$> xi.

Record Dataset : Type := {
  nx : nat;
  ny : nat;
  nz : nat;
  xf : list float;
  time : list float;
  zh : field3;
  zs : option field2;
  uinterp : Z → field3;
  vinterp : Z → field3;
  winterp : Z → field3;
  scalar : string → Z → field3
}.

Record Config : Type := {
  num_seeds_z : nat;
  num_seeds_y : nat;
  time_steps : nat;
  start_time_step : Z;
  var_name1 : string;
  staggered : string;
  seed_x : float;
  seed_y : nat → float;
  seed_z : nat → float
}.

Record ModelInfo : Type := {
  hor_resolution : float;
  vert_resolution : field3;
  time_step_length : float
}.

Record State : Type := {
  xpos : list (list float);
  ypos : list (list float);
  zpos : list (list float);
  zpos_heightASL : list (list float);
  zpos_vert_res : list (list float);
  variable1 : list (list float);
  var1 : option field3
}.

(** [a[1:] - a[:-1]] along the first axis. *)
Definition diff_levels (a : field3) : field3 :=
  zip_with (zip_with (zip_with PrimFloat.sub))
    (drop 1 a) (take (length a - 1) a).

(** Cell 11. *)
Definition model_output_info (ds : Dataset) : option ModelInfo :=
  xf1 ← xf ds !! 1%nat;
  xf0 ← xf ds !! 0%nat;
  time1 ← time ds !! 1%nat;
  time0 ← time ds !! 0%nat;
  Some {| hor_resolution := ((xf1 - xf0) * 1000)%float;
          vert_resolution := diff_levels (zh ds);
          time_step_length := ((time1 - time0) / 1)%float |}.

(** [a - 0.5] on a flattened slice. *)
Definition minus_half (a : list float) : list float :=
  (λ v, (v - 0.5)%float) <$> a.

Definition coords3 (n : nat) (zl yl xl : list float) : list coord3 :=
  (λ i, (zl !!! i, yl !!! i, xl !!! i)) <$> seq 0 n.

Definition coords2 (n : nat) (yl xl : list float) : list coord2 :=
  (λ i, (yl !!! i, xl !!! i)) <$> seq 0 n.

(** [np.maximum(a, lo)]. *)
Definition clip_min (lo a : float) : float :=
  if PrimFloat.is_nan a then PrimFloat.nan
  else if (a <? lo)%float then lo else a.

Section Run.

Context (cfg : Config) (ds : Dataset).

Definition num_parcels : nat := (num_seeds_z cfg * num_seeds_y cfg)%nat.

Definition grid_shape : nat * nat * nat := (nz ds, ny ds, nx ds).

(** Cell 13. *)
Definition zeros : list (list float) :=
  replicate (time_steps cfg) (replicate num_parcels 0%float).

(** Cells 13 and 15. *)
Definition initialize_parcels : option State :=
  if decide (time_steps cfg = 0%nat) then None
  else
    let parcels := seq 0 num_parcels in
    Some {|
      xpos := <[0%nat := (λ _, seed_x cfg) <$> parcels]> zeros;
      ypos := <[0%nat := (λ p, seed_y cfg (p mod num_seeds_y cfg)%nat)
                          <$> parcels]> zeros;
      zpos := <[0%nat := (λ p, seed_z cfg (p / num_seeds_y cfg)%nat)
                          <$> parcels]> zeros;
      zpos_heightASL := zeros;
      zpos_vert_res := zeros;
      variable1 := zeros;
      var1 := None |}.

(** Cell 17. *)
Definition initial_height (st : State) : State :=
  let xloc := minus_half (xpos st !!! 0%nat) in
  let yloc := minus_half (ypos st !!! 0%nat) in
  let zloc := minus_half (zpos st !!! 0%nat) in
  let coord_height := coords3 (length xloc) zloc yloc xloc in
  {| xpos := xpos st; ypos := ypos st; zpos := zpos st;
     zpos_heightASL :=
       <[0%nat := interpn3 grid_shape (zh ds) coord_height 0%float]>
         (zpos_heightASL st);
     zpos_vert_res := zpos_vert_res st;
     variable1 := variable1 st;
     var1 := var1 st |}.

Definition surface_grid : field2 :=
  default (replicate (ny ds) (replicate (nx ds) 0%float)) (zs ds).

Definition stagger_on : bool := String.eqb (staggered cfg) "Y".

Definition velocity_coords (xs ys zl : list float)
    : list coord3 * list coord3 * list coord3 :=
  let xloc := minus_half xs in
  let xloc_stag := xs in
  let yloc := minus_half ys in
  let yloc_stag := ys in
  let zloc := minus_half zl in
  let zloc_stag := zl in
  let n := length xloc in
  if stagger_on then
    (coords3 n zloc yloc xloc_stag,
     coords3 n zloc yloc_stag xloc,
     coords3 n zloc_stag yloc xloc)
  else
    (coords3 n zloc yloc xloc,
     coords3 n zloc yloc xloc,
     coords3 n zloc yloc xloc).

Definition zpos_min : float := if stagger_on then 0.5%float else 0%float.

Section Step.

Context (info : ModelInfo).

(** One pass of the loop of cell 19. *)
Definition step (t : nat) (st : State) : State :=
  let tidx := (start_time_step cfg - Z.of_nat t)%Z in
  let u := uinterp ds tidx in
  let v := vinterp ds tidx in
  let w := winterp ds tidx in
  let var1' := scalar ds (var_name1 cfg) tidx in
  let zs := surface_grid in
  let xs := xpos st !!! t in
  let ys := ypos st !!! t in
  let zs_t := zpos st !!! t in
  let '(coord_u, coord_v, coord_w) := velocity_coords xs ys zs_t in
  let coord :=
    coords3 (length xs) (minus_half zs_t) (minus_half ys) (minus_half xs) in
  let dt := time_step_length info in
  let dx := hor_resolution info in
  let xpos' :=
    <[S t := zip_with (λ x a, (x - a * dt / dx)%float) xs
               (interpn3 grid_shape u coord_u PrimFloat.nan)]> (xpos st) in
  let ypos' :=
    <[S t := zip_with (λ y a, (y - a * dt / dx)%float) ys
               (interpn3 grid_shape v coord_v PrimFloat.nan)]> (ypos st) in
  let height' :=
    <[S t := zip_with (λ h a, (h - a * dt)%float) (zpos_heightASL st !!! t)
               (interpn3 grid_shape w coord_w 0%float)]>
      (zpos_heightASL st) in
  let vert_res' :=
    <[t := interpn3 ((nz ds - 1)%nat, ny ds, nx ds) (vert_resolution info)
             coord PrimFloat.nan]> (zpos_vert_res st) in
  let xloc := minus_half (xpos' !!! S t) in
  let yloc := minus_half (ypos' !!! S t) in
  let coord_zs := coords2 (length xloc) yloc xloc in
  let surface_height := interpn2 (ny ds, nx ds) zs coord_zs PrimFloat.nan in
  let zpos' :=
    <[S t := zip_with PrimFloat.div
               (zip_with PrimFloat.sub (height' !!! S t) surface_height)
               (vert_res' !!! t)]> (zpos st) in
  let zpos'' := (λ row : list float, clip_min zpos_min <$> row) <$> zpos' in
  {| xpos := xpos'; ypos := ypos'; zpos := zpos'';
     zpos_heightASL := height';
     zpos_vert_res := vert_res';
     variable1 :=
       <[t := interpn3 grid_shape var1' coord PrimFloat.nan]> (variable1 st);
     var1 := Some var1' |}.

(** [for t in range(n): ...]. *)
Fixpoint calculate_trajectories (n : nat) (st : State) : State :=
  match n with
  | O => st
  | S k => step k (calculate_trajectories k st)
  end.

End Step.

(** Cell 21. *)
Definition final_time_step (st : State) : option State :=
  let t := (time_steps cfg - 1)%nat in
  let xloc := minus_half (xpos st !!! t) in
  let yloc := minus_half (ypos st !!! t) in
  let zloc := minus_half (zpos st !!! t) in
  let coord := coords3 (length xloc) zloc yloc xloc in
  field ← var1 st;
  Some {| xpos := xpos st; ypos := ypos st; zpos := zpos st;
          zpos_heightASL := zpos_heightASL st;
          zpos_vert_res := zpos_vert_res st;
          variable1 :=
            <[t := interpn3 grid_shape field coord PrimFloat.nan]>
              (variable1 st);
          var1 := var1 st |}.

(** Cells 11 to 21 in order. *)
Definition run : option State :=
  info ← model_output_info ds;
  st ← initialize_parcels;
  final_time_step
    (calculate_trajectories info (time_steps cfg - 1) (initial_height st)).

End Run.

(** The real number a finite binary64 stands for, as a fraction (0 for
    the infinities and not-a-number). *)
Definition exact (a : float) : Q :=
  match Prim2SF a with
  | S754_finite s m e =>
      ((if s then -1 else 1) * (Z.pos m # 1) * Qpower 2 e)%Q
  | _ => 0%Q
  end.

(** [np.full(shape, v)]. *)
Definition full3 (shape : nat * nat * nat) (v : float) : field3 :=
  replicate shape.1.1 (replicate shape.1.2 (replicate shape.2 v)).

(** The test domains of [Scenario] with binary64 entries: [flat] with
    u = 10 m/s, v = w = 0 and levels 100 m apart, [stretched] with levels
    at 50, 150, 350 and 750 m and no wind; 1000 m between grid points,
    output every 60 s.  [one_parcel x z] is the parcel seeded at
    (x, 10, z), five time slices, velocities on the scalar grid. *)
Definition levels (heights : list float) : field3 :=
  (λ h, replicate 16 (replicate 16 h)) <$> heights.

Definition flat : Dataset := {|
  nx := 16; ny := 16; nz := 4;
  xf := [0; 1]%float;
  time := [0; 60]%float;
  zh := levels [50; 150; 250; 350]%float;
  zs := None;
  uinterp := λ _, full3 (4, 16, 16)%nat 10%float;
  vinterp := λ _, full3 (4, 16, 16)%nat 0%float;
  winterp := λ _, full3 (4, 16, 16)%nat 0%float;
  scalar := λ _ i, full3 (4, 16, 16)%nat (grid_point i) |}.

Definition stretched : Dataset := {|
  nx := 16; ny := 16; nz := 4;
  xf := [0; 1]%float;
  time := [0; 60]%float;
  zh := levels [50; 150; 350; 750]%float;
  zs := None;
  uinterp := λ _, full3 (4, 16, 16)%nat 0%float;
  vinterp := λ _, full3 (4, 16, 16)%nat 0%float;
  winterp := λ _, full3 (4, 16, 16)%nat 0%float;
  scalar := λ _ i, full3 (4, 16, 16)%nat (grid_point i) |}.

Definition one_parcel (x z : float) : Config := {|
  num_seeds_z := 1;
  num_seeds_y := 1;
  time_steps := 5;
  start_time_step := 10;
  var_name1 := "th";
  staggered := "N";
  seed_x := x;
  seed_y := λ _, 10%float;
  seed_z := λ _, z |}.

End Binary64.

(** * Properties *)

(** ** Arithmetic on finite numbers *)

Section FloatFacts.

Implicit Types p q : Qc.

Lemma fsub_fin p q : (Fin p - Fin q)%F = Fin (p - q).
Proof. reflexivity. Qed.

Lemma fadd_fin p q : (Fin p + Fin q)%F = Fin (p + q).
Proof. reflexivity. Qed.

Lemma fmul_fin p q : (Fin p * Fin q)%F = Fin (p * q).
Proof. reflexivity. Qed.

Lemma fdiv_fin p q : q ≠ 0 → (Fin p / Fin q)%F = Fin (p / q).
Proof. intros Hq. unfold fdiv. by rewrite decide_False. Qed.

Lemma fdiv_one p : (Fin p / one)%F = Fin p.
Proof.
  unfold one. rewrite fdiv_fin by done. f_equal.
  apply (right_id 1 Qcdiv).
Qed.

Lemma fsub_zero a : (a - zero)%F = a.
Proof.
  destruct a as [q| | |]; try reflexivity.
  unfold zero. rewrite fsub_fin. f_equal. ring.
Qed.

Lemma of_Z_lt n m : flt (of_Z n) (of_Z m) = bool_decide (n < m)%Z.
Proof. unfold of_Z; simpl. apply bool_decide_ext. symmetry. apply Z2Qc_inj_lt. Qed.

Lemma of_Z_le n m : fle (of_Z n) (of_Z m) = bool_decide (n ≤ m)%Z.
Proof. unfold of_Z; simpl. apply bool_decide_ext. symmetry. apply Z2Qc_inj_le. Qed.

Lemma clip_min_spec lo a :
  is_nan lo = false → clip_min lo a = NaN ∨ fle lo (clip_min lo a) = true.
Proof.
  intros Hlo. unfold clip_min.
  destruct a as [q| | |], lo as [l| | |]; simpl in *; try discriminate; auto.
  - case_bool_decide as Hlt; simpl; right; apply bool_decide_eq_true.
    + reflexivity.
    + by apply Qcnot_lt_le.
  - right. apply bool_decide_eq_true. reflexivity.
Qed.

End FloatFacts.

(** ** The interpolator at finite query points *)

Section InterpFacts.

Local Open Scope Z_scope.

Lemma find_index_range n c :
  (2 ≤ n)%nat → 0 ≤ find_index n c ≤ Z.of_nat n - 2.
Proof.
  intros Hn. unfold find_index.
  destruct (Z.ltb_spec (searchsorted n c - 1) 0);
    destruct (Z.gtb_spec 0 (Z.of_nat n - 2));
    try destruct (Z.gtb_spec (searchsorted n c - 1) (Z.of_nat n - 2)); lia.
Qed.

Lemma norm_distance_fin q i :
  norm_distance (Fin q) i = Fin (q - Qc_of_Z i).
Proof.
  unfold norm_distance, grid_point, of_Z. rewrite !fsub_fin.
  replace (Qc_of_Z (i + 1) - Qc_of_Z i)%Qc with (Q2Qc 1).
  - apply fdiv_one.
  - rewrite Z2Qc_inj_add, Z2Qc_inj_1. ring.
Qed.

Lemma edge_weight_lo i y : edge_weight i i y = (one - y)%F.
Proof. unfold edge_weight. by rewrite Z.eqb_refl. Qed.

Lemma edge_weight_hi i y : edge_weight (i + 1) i y = y.
Proof.
  unfold edge_weight. destruct (Z.eqb_spec (i + 1) i); [lia | done].
Qed.

Lemma evaluate_linear3_fin nz ny nx values qz qy qx (g : Z → Z → Z → Qc) :
  let iz := find_index nz (Fin qz) in
  let iy := find_index ny (Fin qy) in
  let ix := find_index nx (Fin qx) in
  (∀ k j i, iz ≤ k ≤ iz + 1 → iy ≤ j ≤ iy + 1 → ix ≤ i ≤ ix + 1 →
            get3 values k j i = Fin (g k j i)) →
  evaluate_linear3 (nz, ny, nx) values (Fin qz, Fin qy, Fin qx) =
  Fin (trilinear g iz iy ix (qz - Qc_of_Z iz) (qy - Qc_of_Z iy)
         (qx - Qc_of_Z ix)).
Proof.
  intros iz iy ix Hg. unfold evaluate_linear3.
  fold iz iy ix. rewrite !norm_distance_fin.
  cbn [edges3 mbind list_bind mjoin foldl app mret list_ret foldr fmap
       list_fmap concat].
  simpl foldl.
  rewrite !edge_weight_lo, !edge_weight_hi.
  rewrite !Hg by lia. reflexivity.
Qed.

Lemma evaluate_linear2_fin ny nx values qy qx (g : Z → Z → Qc) :
  let iy := find_index ny (Fin qy) in
  let ix := find_index nx (Fin qx) in
  (∀ j i, iy ≤ j ≤ iy + 1 → ix ≤ i ≤ ix + 1 →
          get2 values j i = Fin (g j i)) →
  evaluate_linear2 (ny, nx) values (Fin qy, Fin qx) =
  Fin (bilinear g iy ix (qy - Qc_of_Z iy) (qx - Qc_of_Z ix)).
Proof.
  intros iy ix Hg. unfold evaluate_linear2.
  fold iy ix. rewrite !norm_distance_fin.
  simpl foldl.
  rewrite !edge_weight_lo, !edge_weight_hi.
  rewrite !Hg by lia. reflexivity.
Qed.

End InterpFacts.

(** ** Arrays of a given shape with finite entries *)

Section ArrayFacts.

Local Open Scope Z_scope.

Lemma forallb_lookup {A} (f : A → bool) (l : list A) (i : nat) (x : A) :
  forallb f l = true → l !! i = Some x → f x = true.
Proof.
  intros Hall Hx. eapply forallb_forall; [exact Hall|].
  apply list_elem_of_In. by eapply list_elem_of_lookup_2.
Qed.

Lemma is_finite_value a : is_finite a = true → a = Fin (value_of a).
Proof. by destruct a. Qed.

Lemma get2_finite ny nx (a : field2) j i :
  has_shape2 (ny, nx) a = true → all_finite2 a = true →
  0 ≤ j < Z.of_nat ny → 0 ≤ i < Z.of_nat nx →
  get2 a j i = Fin (value_of (get2 a j i)).
Proof.
  intros [Hlen Hrows]%andb_prop Hfin Hj Hi.
  apply bool_decide_eq_true in Hlen. simpl in Hlen.
  apply is_finite_value. unfold get2.
  destruct (lookup_lt_is_Some_2 a (Z.to_nat j)) as [row Hrow]; [lia|].
  pose proof (forallb_lookup _ _ _ _ Hrows Hrow) as Hr.
  apply bool_decide_eq_true in Hr. simpl in Hr.
  destruct (lookup_lt_is_Some_2 row (Z.to_nat i)) as [x Hx]; [lia|].
  rewrite (list_lookup_total_correct _ _ _ Hrow).
  rewrite (list_lookup_total_correct _ _ _ Hx).
  eapply forallb_lookup; [|exact Hx].
  eapply (forallb_lookup (forallb is_finite)); [exact Hfin | exact Hrow].
Qed.

Lemma get3_finite nz ny nx (a : field3) k j i :
  has_shape3 (nz, ny, nx) a = true → all_finite3 a = true →
  0 ≤ k < Z.of_nat nz → 0 ≤ j < Z.of_nat ny → 0 ≤ i < Z.of_nat nx →
  get3 a k j i = Fin (value_of (get3 a k j i)).
Proof.
  intros [Hlen Hpl]%andb_prop Hfin Hk Hj Hi.
  apply bool_decide_eq_true in Hlen. simpl in Hlen.
  destruct (lookup_lt_is_Some_2 a (Z.to_nat k)) as [pl Hplane]; [lia|].
  unfold get3. rewrite (list_lookup_total_correct _ _ _ Hplane).
  apply (get2_finite ny nx pl j i); [| |done..].
  - exact (forallb_lookup _ _ _ _ Hpl Hplane).
  - exact (forallb_lookup _ _ _ _ Hfin Hplane).
Qed.

(** Where an integer coordinate falls: on the lower corner of its cell
    with distance 0, or on the upper corner with distance 1. *)
Lemma find_index_grid_point n k :
  (2 ≤ n)%nat → 0 ≤ k ≤ Z.of_nat n - 1 →
  let i := find_index n (of_Z k) in
  let d := (Qc_of_Z k - Qc_of_Z i)%Qc in
  0 ≤ i ≤ Z.of_nat n - 2 ∧ ((i = k ∧ d = 0%Qc) ∨ (i + 1 = k ∧ d = Q2Qc 1)).
Proof.
  intros Hn Hk i d. split; [by apply find_index_range|].
  subst d i. unfold find_index, searchsorted, of_Z.
  destruct (decide (Qc_of_Z k ≤ 0)%Qc) as [Hle|Hgt].
  - rewrite <- Z2Qc_inj_0, <- Z2Qc_inj_le in Hle.
    assert (k = 0) as -> by lia. left. simpl.
    destruct (Z.gtb_spec 0 (Z.of_nat n - 2)); [lia|].
    split; [done|]. ring.
  - rewrite <- Z2Qc_inj_0, <- Z2Qc_inj_le in Hgt.
    assert (Qceiling (Qc_of_Z k) = k) as -> by apply Qceiling_Z.
    rewrite Z.min_r by lia.
    destruct (Z.ltb_spec (k - 1) 0); [lia|].
    destruct (Z.gtb_spec (k - 1) (Z.of_nat n - 2)); [lia|].
    right. split; [lia|].
    rewrite Z2Qc_inj_sub, Z2Qc_inj_1. ring.
Qed.

Lemma grid_point_in_bounds n k :
  0 ≤ k ≤ Z.of_nat n - 1 → out_of_bounds n (of_Z k) = false.
Proof.
  intros Hk. unfold out_of_bounds, fgt, grid_point.
  rewrite !of_Z_lt. rewrite !bool_decide_eq_false_2 by lia. done.
Qed.

End ArrayFacts.

(** ** The interpolator on the grid points *)

Section GridPoints.

Local Open Scope Z_scope.

(** C8.  On a field of at least two points per axis whose entries are all
    finite, linear interpolation at an integer coordinate (z, y, x) inside
    the index bounds returns the entry stored at that index, whatever fill
    value the call was given. *)
Theorem interpn3_at_grid_point
    (nz ny nx : nat) (values : field3) (fill_value : fnum) (k j i : Z) :
  (2 ≤ nz)%nat → (2 ≤ ny)%nat → (2 ≤ nx)%nat →
  has_shape3 (nz, ny, nx) values = true →
  all_finite3 values = true →
  0 ≤ k ≤ Z.of_nat nz - 1 →
  0 ≤ j ≤ Z.of_nat ny - 1 →
  0 ≤ i ≤ Z.of_nat nx - 1 →
  interpn3 (nz, ny, nx) values [(of_Z k, of_Z j, of_Z i)] false fill_value
  = Some [get3 values k j i].
Proof.
  intros Hnz Hny Hnx Hshape Hfin Hk Hj Hi.
  unfold interpn3. cbn [andb fmap list_fmap]. do 2 f_equal.
  unfold sample3, out_of_bounds3.
  rewrite !grid_point_in_bounds by done. cbn [orb].
  unfold of_Z.
  pose proof (evaluate_linear3_fin nz ny nx values (Qc_of_Z k) (Qc_of_Z j)
                (Qc_of_Z i) (λ a b c, value_of (get3 values a b c))) as Heval.
  cbv zeta in Heval. rewrite Heval; clear Heval.
  2:{ intros a b c Ha Hb Hc.
      pose proof (find_index_range nz (Fin (Qc_of_Z k)) Hnz).
      pose proof (find_index_range ny (Fin (Qc_of_Z j)) Hny).
      pose proof (find_index_range nx (Fin (Qc_of_Z i)) Hnx).
      apply (get3_finite nz ny nx); [done | done | lia..]. }
  rewrite (get3_finite nz ny nx values k j i) by (done || lia).
  f_equal.
  destruct (find_index_grid_point nz k Hnz Hk) as [_ Hz].
  destruct (find_index_grid_point ny j Hny Hj) as [_ Hy].
  destruct (find_index_grid_point nx i Hnx Hi) as [_ Hx].
  unfold of_Z in Hz, Hy, Hx. unfold trilinear.
  destruct Hz as [[Hz ->]|[Hz ->]], Hy as [[Hy ->]|[Hy ->]],
    Hx as [[Hx ->]|[Hx ->]]; rewrite ?Hz, ?Hy, ?Hx; ring.
Qed.

End GridPoints.

(** ** Reading and writing time slices *)

Section Slices.

Implicit Types a : list (list fnum).

Lemma has_shape2_length T P a : has_shape2 (T, P) a = true → length a = T.
Proof. intros [H _]%andb_prop. by apply bool_decide_eq_true in H. Qed.

Lemma has_shape2_row T P a t :
  has_shape2 (T, P) a = true → (t < T)%nat → length (a !!! t) = P.
Proof.
  intros [Hlen Hrows]%andb_prop Ht.
  apply bool_decide_eq_true in Hlen. simpl in Hlen.
  destruct (lookup_lt_is_Some_2 a t) as [row Hrow]; [lia|].
  rewrite (list_lookup_total_correct _ _ _ Hrow).
  pose proof (forallb_lookup _ _ _ _ Hrows Hrow) as Hr.
  by apply bool_decide_eq_true in Hr.
Qed.

Lemma has_shape2_intro T P a :
  length a = T → (∀ t row, a !! t = Some row → length row = P) →
  has_shape2 (T, P) a = true.
Proof.
  intros Hlen Hrows. unfold has_shape2. apply andb_true_intro. split.
  - by apply bool_decide_eq_true.
  - apply forallb_forall. intros row [t Ht]%list_elem_of_In%list_elem_of_lookup_1.
    apply bool_decide_eq_true. eauto.
Qed.

Lemma has_shape2_lookup T P a t row :
  has_shape2 (T, P) a = true → a !! t = Some row → length row = P.
Proof.
  intros [_ Hrows]%andb_prop Hrow.
  pose proof (forallb_lookup _ _ _ _ Hrows Hrow) as Hr.
  by apply bool_decide_eq_true in Hr.
Qed.

Lemma has_shape2_insert T P a t row :
  has_shape2 (T, P) a = true → length row = P →
  has_shape2 (T, P) (<[t := row]> a) = true.
Proof.
  intros Ha Hrow. apply has_shape2_intro.
  - rewrite length_insert. by eapply has_shape2_length.
  - intros t' row' Hl. destruct (decide (t = t')) as [->|Hne].
    + destruct (decide (t' < length a)%nat).
      * rewrite list_lookup_insert_eq in Hl by done. by simplify_eq.
      * rewrite list_insert_ge in Hl by lia. by eapply has_shape2_lookup.
    + rewrite list_lookup_insert_ne in Hl by done.
      by eapply has_shape2_lookup.
Qed.

Lemma has_shape2_fmap T P a (f : fnum → fnum) :
  has_shape2 (T, P) a = true →
  has_shape2 (T, P) ((λ row : list fnum, f <$> row) <$> a) = true.
Proof.
  intros Ha. apply has_shape2_intro.
  - rewrite length_fmap. by eapply has_shape2_length.
  - intros t row Hl. rewrite list_lookup_fmap in Hl.
    destruct (a !! t) as [r|] eqn:Hr; [|done]. simpl in Hl. simplify_eq.
    rewrite length_fmap. by eapply has_shape2_lookup.
Qed.

Lemma entry_insert_eq a t row p :
  (t < length a)%nat → entry (<[t := row]> a) t p = row !!! p.
Proof.
  intros Ht. unfold entry.
  by rewrite list_lookup_total_insert_eq.
Qed.

Lemma entry_insert_ne a t t' row p :
  t ≠ t' → entry (<[t := row]> a) t' p = entry a t' p.
Proof.
  intros Hne. unfold entry. by rewrite list_lookup_total_insert_ne.
Qed.

Lemma entry_fmap a (f : fnum → fnum) t p :
  (t < length a)%nat → (p < length (a !!! t))%nat →
  entry ((λ row : list fnum, f <$> row) <$> a) t p = f (entry a t p).
Proof.
  intros Ht Hp. unfold entry.
  rewrite (list_lookup_total_fmap (λ row : list fnum, f <$> row) a t Ht).
  by rewrite (list_lookup_total_fmap f (a !!! t) p Hp).
Qed.

Lemma lookup_total_zip_with {A B C} `{Inhabited A, Inhabited B, Inhabited C}
    (f : A → B → C) (l : list A) (k : list B) (p : nat) :
  (p < length l)%nat → (p < length k)%nat →
  zip_with f l k !!! p = f (l !!! p) (k !!! p).
Proof.
  intros Hl Hk.
  destruct (lookup_lt_is_Some_2 l p Hl) as [x Hx].
  destruct (lookup_lt_is_Some_2 k p Hk) as [y Hy].
  rewrite (list_lookup_total_correct _ _ _ Hx).
  rewrite (list_lookup_total_correct _ _ _ Hy).
  apply list_lookup_total_correct.
  rewrite lookup_zip_with, Hx. simpl. by rewrite Hy.
Qed.

Lemma minus_half_lookup (l : list fnum) p :
  (p < length l)%nat → minus_half l !!! p = (l !!! p - half)%F.
Proof.
  intros Hp. unfold minus_half.
  by rewrite (list_lookup_total_fmap _ l p Hp).
Qed.

Lemma length_minus_half (l : list fnum) : length (minus_half l) = length l.
Proof. unfold minus_half. by rewrite length_fmap. Qed.

Lemma coords3_lookup n zl yl xl p :
  (p < n)%nat → coords3 n zl yl xl !!! p = (zl !!! p, yl !!! p, xl !!! p).
Proof.
  intros Hp. unfold coords3.
  rewrite (list_lookup_total_fmap _ (seq 0 n) p) by (by rewrite length_seq).
  by rewrite (lookup_total_seq_lt 0 n p Hp).
Qed.

Lemma coords2_lookup n yl xl p :
  (p < n)%nat → coords2 n yl xl !!! p = (yl !!! p, xl !!! p).
Proof.
  intros Hp. unfold coords2.
  rewrite (list_lookup_total_fmap _ (seq 0 n) p) by (by rewrite length_seq).
  by rewrite (lookup_total_seq_lt 0 n p Hp).
Qed.

Lemma length_coords3 n zl yl xl : length (coords3 n zl yl xl) = n.
Proof. unfold coords3. by rewrite length_fmap, length_seq. Qed.

Lemma length_coords2 n yl xl : length (coords2 n yl xl) = n.
Proof. unfold coords2. by rewrite length_fmap, length_seq. Qed.

End Slices.

(** ** One pass of the loop *)

Section StepFacts.

Context (cfg : Config) (ds : Dataset) (info : ModelInfo).

Lemma step_total t st : is_Some (step cfg ds info t st).
Proof.
  unfold step.
  destruct (velocity_coords cfg (xpos st !!! t) (ypos st !!! t)
              (zpos st !!! t)) as [[cu cv] cw].
  cbn [interpn3 interpn2 andb mbind option_bind]. eauto.
Qed.

Lemma velocity_coords_length xs ys zl :
  let vc := velocity_coords cfg xs ys zl in
  length vc.1.1 = length xs ∧ length vc.1.2 = length xs
  ∧ length vc.2 = length xs.
Proof.
  unfold velocity_coords. destruct (stagger_on cfg); simpl;
    by rewrite !length_coords3, !length_minus_half.
Qed.

Lemma step_components t st st' :
  step cfg ds info t st = Some st' →
  let tidx := (start_time_step cfg - Z.of_nat t)%Z in
  let xs := xpos st !!! t in
  let ys := ypos st !!! t in
  let zl := zpos st !!! t in
  let vc := velocity_coords cfg xs ys zl in
  let crd :=
    coords3 (length xs) (minus_half zl) (minus_half ys) (minus_half xs) in
  let dt := time_step_length info in
  let dx := hor_resolution info in
  let xrow := zip_with (λ x a, (x - a * dt / dx)%F) xs
                (sample3 (grid_shape ds) (uinterp ds tidx) NaN <$> vc.1.1) in
  let yrow := zip_with (λ y a, (y - a * dt / dx)%F) ys
                (sample3 (grid_shape ds) (vinterp ds tidx) NaN <$> vc.1.2) in
  let hrow := zip_with (λ h a, (h - a * dt)%F) (zpos_heightASL st !!! t)
                (sample3 (grid_shape ds) (winterp ds tidx) zero <$> vc.2) in
  let res := sample3 ((nz ds - 1)%nat, ny ds, nx ds) (vert_resolution info)
               NaN <$> crd in
  let xpos' := <[S t := xrow]> (xpos st) in
  let ypos' := <[S t := yrow]> (ypos st) in
  let height' := <[S t := hrow]> (zpos_heightASL st) in
  let vert_res' := <[t := res]> (zpos_vert_res st) in
  let surface_height :=
    sample2 (ny ds, nx ds) (surface_grid ds) NaN
      <$> coords2 (length (minus_half (xpos' !!! S t)))
            (minus_half (ypos' !!! S t)) (minus_half (xpos' !!! S t)) in
  let zrow := zip_with fdiv (zip_with fsub (height' !!! S t) surface_height)
                (vert_res' !!! t) in
  xpos st' = xpos'
  ∧ ypos st' = ypos'
  ∧ zpos_heightASL st' = height'
  ∧ zpos_vert_res st' = vert_res'
  ∧ zpos st' = (λ row : list fnum, clip_min (zpos_min cfg) <$> row)
                 <$> <[S t := zrow]> (zpos st)
  ∧ variable1 st' =
      <[t := sample3 (grid_shape ds) (scalar ds (var_name1 cfg) tidx) NaN
               <$> crd]> (variable1 st)
  ∧ var1 st' = Some (scalar ds (var_name1 cfg) tidx).
Proof.
  unfold step.
  destruct (velocity_coords cfg (xpos st !!! t) (ypos st !!! t)
              (zpos st !!! t)) as [[cu cv] cw] eqn:Hvc.
  cbn [interpn3 interpn2 andb mbind option_bind].
  intros [= <-]. cbn [xpos ypos zpos zpos_heightASL zpos_vert_res variable1
                      var1 fst snd].
  done.
Qed.

End StepFacts.

(** Lengths of the slices a pass builds. *)
Ltac simpl_length :=
  repeat first
    [ rewrite length_minus_half
    | rewrite length_coords2
    | rewrite length_coords3
    | rewrite length_zip_with
    | rewrite length_fmap
    | rewrite length_insert
    | rewrite list_lookup_total_insert_eq by lia ].

Section StepEntries.

Context (cfg : Config) (ds : Dataset) (info : ModelInfo).

Lemma well_shaped_unfold st :
  well_shaped cfg st = true →
  let shape := (time_steps cfg, num_parcels cfg) in
  has_shape2 shape (xpos st) = true ∧ has_shape2 shape (ypos st) = true
  ∧ has_shape2 shape (zpos st) = true
  ∧ has_shape2 shape (zpos_heightASL st) = true
  ∧ has_shape2 shape (zpos_vert_res st) = true
  ∧ has_shape2 shape (variable1 st) = true.
Proof.
  unfold well_shaped. rewrite !andb_true_iff. tauto.
Qed.

Lemma step_well_shaped t st st' :
  well_shaped cfg st = true → (S t < time_steps cfg)%nat →
  step cfg ds info t st = Some st' → well_shaped cfg st' = true.
Proof.
  intros Hws Ht Hstep.
  destruct (well_shaped_unfold st Hws) as (Hx & Hy & Hz & Hh & Hr & Hv).
  destruct (step_components cfg ds info t st st' Hstep)
    as (Ex & Ey & Eh & Er & Ez & Ev & _).
  destruct (velocity_coords_length cfg (xpos st !!! t) (ypos st !!! t)
              (zpos st !!! t)) as (Lu & Lv & Lw).
  pose proof (has_shape2_row _ _ _ t Hx ltac:(lia)) as Lx.
  pose proof (has_shape2_row _ _ _ t Hy ltac:(lia)) as Ly.
  pose proof (has_shape2_row _ _ _ t Hz ltac:(lia)) as Lz.
  pose proof (has_shape2_row _ _ _ t Hh ltac:(lia)) as Lh.
  pose proof (has_shape2_length _ _ _ Hx) as Tx.
  pose proof (has_shape2_length _ _ _ Hy) as Ty.
  pose proof (has_shape2_length _ _ _ Hh) as Th.
  pose proof (has_shape2_length _ _ _ Hr) as Tr.
  unfold well_shaped. rewrite Ex, Ey, Eh, Er, Ez, Ev.
  rewrite !andb_true_iff. repeat split.
  - apply has_shape2_insert; [done|].
    rewrite length_zip_with, length_fmap. lia.
  - apply has_shape2_insert; [done|].
    rewrite length_zip_with, length_fmap. lia.
  - apply has_shape2_fmap, has_shape2_insert; [done|].
    simpl_length. lia.
  - apply has_shape2_insert; [done|].
    rewrite length_zip_with, length_fmap. lia.
  - apply has_shape2_insert; [done|].
    rewrite length_fmap, length_coords3. lia.
  - apply has_shape2_insert; [done|].
    rewrite length_fmap, length_coords3. lia.
Qed.

(** What pass [t] stores for parcel [p]. *)
Lemma step_entries t p st st' :
  well_shaped cfg st = true →
  (S t < time_steps cfg)%nat → (p < num_parcels cfg)%nat →
  step cfg ds info t st = Some st' →
  let tidx := (start_time_step cfg - Z.of_nat t)%Z in
  let dt := time_step_length info in
  let dx := hor_resolution info in
  entry (xpos st') (S t) p =
    (entry (xpos st) t p
     - sample3 (grid_shape ds) (uinterp ds tidx) NaN (coord_u cfg st t p)
       * dt / dx)%F
  ∧ entry (ypos st') (S t) p =
    (entry (ypos st) t p
     - sample3 (grid_shape ds) (vinterp ds tidx) NaN (coord_v cfg st t p)
       * dt / dx)%F
  ∧ entry (zpos_heightASL st') (S t) p =
    (entry (zpos_heightASL st) t p
     - sample3 (grid_shape ds) (winterp ds tidx) zero (coord_w cfg st t p)
       * dt)%F
  ∧ entry (zpos_vert_res st') t p =
    sample3 ((nz ds - 1)%nat, ny ds, nx ds) (vert_resolution info) NaN
      (coord st t p)
  ∧ entry (zpos st') (S t) p =
    clip_min (zpos_min cfg)
      ((entry (zpos_heightASL st') (S t) p
        - sample2 (ny ds, nx ds) (surface_grid ds) NaN
            ((entry (ypos st') (S t) p - half)%F,
             (entry (xpos st') (S t) p - half)%F))
       / entry (zpos_vert_res st') t p)%F
  ∧ entry (variable1 st') t p =
    sample3 (grid_shape ds) (scalar ds (var_name1 cfg) tidx) NaN
      (coord st t p).
Proof.
  intros Hws Ht Hp Hstep.
  pose proof (step_well_shaped t st st' Hws Ht Hstep) as Hws'.
  destruct (well_shaped_unfold st Hws) as (Hx & Hy & Hz & Hh & Hr & Hv).
  destruct (well_shaped_unfold st' Hws') as (Hx' & Hy' & _ & Hh' & Hr' & _).
  destruct (step_components cfg ds info t st st' Hstep)
    as (Ex & Ey & Eh & Er & Ez & Ev & _).
  destruct (velocity_coords_length cfg (xpos st !!! t) (ypos st !!! t)
              (zpos st !!! t)) as (Lu & Lv & Lw).
  pose proof (has_shape2_row _ _ _ t Hx ltac:(lia)) as Lx.
  pose proof (has_shape2_row _ _ _ t Hy ltac:(lia)) as Ly.
  pose proof (has_shape2_row _ _ _ t Hz ltac:(lia)) as Lz.
  pose proof (has_shape2_row _ _ _ t Hh ltac:(lia)) as Lh.
  pose proof (has_shape2_row _ _ _ (S t) Hx' Ht) as Lx'.
  pose proof (has_shape2_row _ _ _ (S t) Hy' Ht) as Ly'.
  pose proof (has_shape2_row _ _ _ (S t) Hh' Ht) as Lh'.
  pose proof (has_shape2_row _ _ _ t Hr' ltac:(lia)) as Lr'.
  pose proof (has_shape2_length _ _ _ Hx) as Tx.
  pose proof (has_shape2_length _ _ _ Hy) as Ty.
  pose proof (has_shape2_length _ _ _ Hz) as Tz.
  pose proof (has_shape2_length _ _ _ Hh) as Th.
  pose proof (has_shape2_length _ _ _ Hr) as Tr.
  pose proof (has_shape2_length _ _ _ Hv) as Tv.
  assert (entry (xpos st') (S t) p =
    (entry (xpos st) t p
     - sample3 (grid_shape ds)
         (uinterp ds (start_time_step cfg - Z.of_nat t)%Z) NaN
         (coord_u cfg st t p)
       * time_step_length info / hor_resolution info)%F) as Hxe.
  { rewrite Ex, entry_insert_eq by lia.
    rewrite lookup_total_zip_with by (rewrite ?length_fmap; lia).
    unfold coord_u, entry.
    by rewrite (list_lookup_total_fmap _ _ p) by lia. }
  assert (entry (ypos st') (S t) p =
    (entry (ypos st) t p
     - sample3 (grid_shape ds)
         (vinterp ds (start_time_step cfg - Z.of_nat t)%Z) NaN
         (coord_v cfg st t p)
       * time_step_length info / hor_resolution info)%F) as Hye.
  { rewrite Ey, entry_insert_eq by lia.
    rewrite lookup_total_zip_with by (rewrite ?length_fmap; lia).
    unfold coord_v, entry.
    by rewrite (list_lookup_total_fmap _ _ p) by lia. }
  assert (entry (zpos_vert_res st') t p =
    sample3 ((nz ds - 1)%nat, ny ds, nx ds) (vert_resolution info) NaN
      (coord st t p)) as Hre.
  { rewrite Er, entry_insert_eq by lia. unfold coord.
    by rewrite (list_lookup_total_fmap _ _ p)
      by (rewrite length_coords3; lia). }
  split; [exact Hxe|]. split; [exact Hye|]. split; [|split; [exact Hre|split]].
  - rewrite Eh, entry_insert_eq by lia.
    rewrite lookup_total_zip_with by (rewrite ?length_fmap; lia).
    unfold coord_w, entry.
    by rewrite (list_lookup_total_fmap _ _ p) by lia.
  - rewrite Ez at 1.
    rewrite entry_fmap;
      [|rewrite length_insert; lia
       |rewrite list_lookup_total_insert_eq by lia;
        rewrite <- Ex, <- Ey, <- Eh, <- Er; simpl_length; lia].
    f_equal. rewrite entry_insert_eq by lia.
    rewrite <- Ex, <- Ey, <- Eh, <- Er.
    rewrite !lookup_total_zip_with by (simpl_length; lia).
    rewrite (list_lookup_total_fmap _ _ p) by (simpl_length; lia).
    rewrite coords2_lookup by (simpl_length; lia).
    rewrite !minus_half_lookup by lia. reflexivity.
  - rewrite Ev, entry_insert_eq by lia. unfold coord.
    by rewrite (list_lookup_total_fmap _ _ p)
      by (rewrite length_coords3; lia).
Qed.

End StepEntries.

(** ** Uniform fields *)

Section UniformFields.

Local Open Scope Z_scope.

Lemma get3_full nz ny nx v k j i :
  0 ≤ k < Z.of_nat nz → 0 ≤ j < Z.of_nat ny → 0 ≤ i < Z.of_nat nx →
  get3 (full3 (nz, ny, nx) v) k j i = v.
Proof.
  intros Hk Hj Hi. unfold get3, full3. cbn [fst snd].
  rewrite (lookup_total_replicate_2 nz _ (Z.to_nat k)) by lia.
  rewrite (lookup_total_replicate_2 ny _ (Z.to_nat j)) by lia.
  by rewrite (lookup_total_replicate_2 nx _ (Z.to_nat i)) by lia.
Qed.

Lemma get2_full ny nx v j i :
  0 ≤ j < Z.of_nat ny → 0 ≤ i < Z.of_nat nx →
  get2 (full2 (ny, nx) v) j i = v.
Proof.
  intros Hj Hi. unfold get2, full2. cbn [fst snd].
  rewrite (lookup_total_replicate_2 ny _ (Z.to_nat j)) by lia.
  by rewrite (lookup_total_replicate_2 nx _ (Z.to_nat i)) by lia.
Qed.

(** A coordinate that is a number and not out of bounds is finite. *)
Lemma in_bounds_finite n c :
  out_of_bounds n c = false → is_nan c = false → ∃ q, c = Fin q.
Proof.
  unfold out_of_bounds, fgt, grid_point, of_Z.
  destruct c; simpl; intros; try discriminate; eauto.
Qed.

Lemma in_range_finite n c : in_range n c = true → ∃ q, c = Fin q.
Proof.
  unfold in_range, grid_point, of_Z.
  destruct c; simpl; intros; try discriminate; eauto.
Qed.

Lemma in_range_in_bounds n c : in_range n c = true → out_of_bounds n c = false.
Proof.
  unfold in_range, out_of_bounds, fgt, grid_point, of_Z.
  destruct c as [q| | |]; simpl; try discriminate.
  rewrite andb_true_iff, orb_false_iff, !bool_decide_eq_true,
    !bool_decide_eq_false.
  intros [H0 H1]. split; by apply Qcle_not_lt.
Qed.

Lemma in_range3_in_bounds shape c :
  in_range3 shape c = true → out_of_bounds3 shape c = false.
Proof.
  destruct shape as [[nz ny] nx], c as [[cz cy] cx]. simpl.
  rewrite !andb_true_iff. intros [[Hz Hy] Hx].
  by rewrite !in_range_in_bounds.
Qed.

Lemma evaluate_linear3_full nz ny nx c qz qy qx :
  (2 ≤ nz)%nat → (2 ≤ ny)%nat → (2 ≤ nx)%nat →
  evaluate_linear3 (nz, ny, nx) (full3 (nz, ny, nx) (Fin c))
    (Fin qz, Fin qy, Fin qx) = Fin c.
Proof.
  intros Hnz Hny Hnx.
  pose proof (evaluate_linear3_fin nz ny nx (full3 (nz, ny, nx) (Fin c))
                qz qy qx (λ _ _ _, c)) as Heval.
  cbv zeta in Heval. rewrite Heval; clear Heval.
  - f_equal. unfold trilinear. ring.
  - intros k j i Hk Hj Hi.
    pose proof (find_index_range nz (Fin qz) Hnz).
    pose proof (find_index_range ny (Fin qy) Hny).
    pose proof (find_index_range nx (Fin qx) Hnx).
    apply get3_full; lia.
Qed.

(** Interpolating a uniform field: the constant wherever the query point
    is a point of the index space, the fill value outside the bounds. *)
Lemma sample3_full nz ny nx c fill q :
  (2 ≤ nz)%nat → (2 ≤ ny)%nat → (2 ≤ nx)%nat →
  has_nan3 q = false →
  sample3 (nz, ny, nx) (full3 (nz, ny, nx) (Fin c)) fill q =
  if out_of_bounds3 (nz, ny, nx) q then fill else Fin c.
Proof.
  intros Hnz Hny Hnx Hnan. unfold sample3.
  destruct (out_of_bounds3 (nz, ny, nx) q) eqn:Hoob; [done|].
  destruct q as [[cz cy] cx]. unfold has_nan3 in Hnan. simpl in Hnan, Hoob.
  apply orb_false_elim in Hnan as [[Nz Ny]%orb_false_elim Nx].
  apply orb_false_elim in Hoob as [[Oz Oy]%orb_false_elim Ox].
  destruct (in_bounds_finite _ _ Oz Nz) as [qz ->].
  destruct (in_bounds_finite _ _ Oy Ny) as [qy ->].
  destruct (in_bounds_finite _ _ Ox Nx) as [qx ->].
  by apply evaluate_linear3_full.
Qed.

Lemma in_range3_no_nan shape q : in_range3 shape q = true → has_nan3 q = false.
Proof.
  destruct shape as [[nz ny] nx], q as [[cz cy] cx]. simpl.
  rewrite !andb_true_iff. intros [[Hz Hy] Hx].
  destruct (in_range_finite _ _ Hz) as [? ->].
  destruct (in_range_finite _ _ Hy) as [? ->].
  by destruct (in_range_finite _ _ Hx) as [? ->].
Qed.

End UniformFields.

(** ** The query coordinates of a pass *)

Section Coordinates.

Context (cfg : Config).

Lemma stagger_on_Y : stagger_on cfg = true ↔ staggered cfg = "Y".
Proof. unfold stagger_on. apply String.eqb_eq. Qed.

Lemma coord_scalar st t p :
  well_shaped cfg st = true →
  (t < time_steps cfg)%nat → (p < num_parcels cfg)%nat →
  coord st t p =
  ((entry (zpos st) t p - half)%F, (entry (ypos st) t p - half)%F,
   (entry (xpos st) t p - half)%F).
Proof.
  intros Hws Ht Hp.
  destruct (well_shaped_unfold cfg st Hws) as (Hx & Hy & Hz & _).
  pose proof (has_shape2_row _ _ _ t Hx Ht) as Lx.
  pose proof (has_shape2_row _ _ _ t Hy Ht) as Ly.
  pose proof (has_shape2_row _ _ _ t Hz Ht) as Lz.
  unfold coord, entry. rewrite coords3_lookup by lia.
  by rewrite !minus_half_lookup by lia.
Qed.

(** C7.  In every pass the query point of each velocity component is the
    parcel's current position shifted by -0.5 on every axis, except that
    with the stagger flag set (['Y']) the axis on which the component is
    staggered is left unshifted: x for u, y for v, z for w.  With any other
    value of the flag all three components use the fully shifted point. *)
Theorem velocity_query_coordinates st t p :
  well_shaped cfg st = true →
  (t < time_steps cfg)%nat → (p < num_parcels cfg)%nat →
  let x := entry (xpos st) t p in
  let y := entry (ypos st) t p in
  let z := entry (zpos st) t p in
  (staggered cfg = "Y" →
     coord_u cfg st t p = ((z - half)%F, (y - half)%F, x)
     ∧ coord_v cfg st t p = ((z - half)%F, y, (x - half)%F)
     ∧ coord_w cfg st t p = (z, (y - half)%F, (x - half)%F))
  ∧ (staggered cfg ≠ "Y" →
     coord_u cfg st t p = ((z - half)%F, (y - half)%F, (x - half)%F)
     ∧ coord_v cfg st t p = ((z - half)%F, (y - half)%F, (x - half)%F)
     ∧ coord_w cfg st t p = ((z - half)%F, (y - half)%F, (x - half)%F)).
Proof.
  intros Hws Ht Hp x y z.
  destruct (well_shaped_unfold cfg st Hws) as (Hx & Hy & Hz & _).
  pose proof (has_shape2_row _ _ _ t Hx Ht) as Lx.
  pose proof (has_shape2_row _ _ _ t Hy Ht) as Ly.
  pose proof (has_shape2_row _ _ _ t Hz Ht) as Lz.
  subst x y z. unfold coord_u, coord_v, coord_w, velocity_coords, entry.
  split; intros Hflag.
  - apply stagger_on_Y in Hflag. rewrite Hflag. cbn [fst snd].
    rewrite !coords3_lookup by (simpl_length; lia).
    by rewrite !minus_half_lookup by lia.
  - assert (stagger_on cfg = false) as ->.
    { apply not_true_is_false. by rewrite stagger_on_Y. }
    cbn [fst snd].
    rewrite !coords3_lookup by (simpl_length; lia).
    by rewrite !minus_half_lookup by lia.
Qed.

End Coordinates.

(** ** Displacement of a parcel in one pass *)

Section Displacement.

Context (cfg : Config) (ds : Dataset) (info : ModelInfo).

(** C1.  Pass [t] moves parcel [p] horizontally by the interpolated
    velocity times the time step over the horizontal resolution:
    x' = x - u * dt / dx and y' = y - v * dt / dx, with u and v the values
    the two interpolations return at the parcel's query points.  In
    particular, where v is 0 over the whole grid, dx = 1000 m and
    dt = 60 s, a parcel whose query point lies inside the grid keeps its
    y. *)
Theorem horizontal_displacement t p st st' :
  well_shaped cfg st = true →
  (S t < time_steps cfg)%nat → (p < num_parcels cfg)%nat →
  step cfg ds info t st = Some st' →
  let tidx := (start_time_step cfg - Z.of_nat t)%Z in
  let dt := time_step_length info in
  let dx := hor_resolution info in
  let u := sample3 (grid_shape ds) (uinterp ds tidx) NaN (coord_u cfg st t p) in
  let v := sample3 (grid_shape ds) (vinterp ds tidx) NaN (coord_v cfg st t p) in
  (entry (xpos st') (S t) p = (entry (xpos st) t p - u * dt / dx)%F
   ∧ entry (ypos st') (S t) p = (entry (ypos st) t p - v * dt / dx)%F)
  ∧ ((2 ≤ nz ds)%nat → (2 ≤ ny ds)%nat → (2 ≤ nx ds)%nat →
     vinterp ds tidx = full3 (grid_shape ds) zero →
     dx = of_Z 1000 → dt = of_Z 60 →
     in_range3 (grid_shape ds) (coord_v cfg st t p) = true →
     entry (ypos st') (S t) p = entry (ypos st) t p).
Proof.
  intros Hws Ht Hp Hstep tidx dt dx u v.
  destruct (step_entries cfg ds info t p st st' Hws Ht Hp Hstep)
    as (Hx & Hy & _).
  split; [by split|].
  intros Hnz Hny Hnx Hv Hdx Hdt Hcv.
  rewrite Hy. fold tidx dt dx. rewrite Hv, Hdx, Hdt.
  unfold grid_shape, of_Z, zero in *.
  rewrite !sample3_full by (done || by eapply in_range3_no_nan).
  rewrite !in_range3_in_bounds by done.
  rewrite !fmul_fin.
  rewrite !fdiv_fin by (rewrite <- Z2Qc_inj_0; by intros ?%Z2Qc_inj).
  rewrite Qcmult_0_l. unfold Qcdiv. rewrite Qcmult_0_l. apply fsub_zero.
Qed.

(** Still air: where w is 0 over the whole grid, a pass leaves the height
    of a parcel whose position is a number as it was. *)
Lemma zero_w_keeps_height t p st st' :
  well_shaped cfg st = true →
  (S t < time_steps cfg)%nat → (p < num_parcels cfg)%nat →
  step cfg ds info t st = Some st' →
  (2 ≤ nz ds)%nat → (2 ≤ ny ds)%nat → (2 ≤ nx ds)%nat →
  winterp ds (start_time_step cfg - Z.of_nat t)%Z
    = full3 (grid_shape ds) zero →
  is_finite (time_step_length info) = true →
  has_nan3 (coord_w cfg st t p) = false →
  entry (zpos_heightASL st') (S t) p = entry (zpos_heightASL st) t p.
Proof.
  intros Hws Ht Hp Hstep Hnz Hny Hnx Hw Hdt Hnan.
  destruct (step_entries cfg ds info t p st st' Hws Ht Hp Hstep)
    as (_ & _ & Hh & _).
  rewrite Hh, Hw. unfold grid_shape, zero in *.
  rewrite sample3_full by done.
  destruct (time_step_length info) as [q| | |]; try discriminate.
  replace (if out_of_bounds3 (nz ds, ny ds, nx ds) (coord_w cfg st t p)
           then Fin 0 else Fin 0) with (Fin 0) by (by case_match).
  rewrite fmul_fin, Qcmult_0_l. apply fsub_zero.
Qed.

(** C2.  Pass [t] lowers the height above sea level of parcel [p] by the
    interpolated vertical velocity times the time step, in metres:
    h' = h - w * dt; neither the vertical grid spacing nor the surface
    height enters.  Consequently, where w is 0 over the whole grid and the
    time step is a finite number, the height of a parcel whose position is
    a number is unchanged by the pass, whatever the terrain. *)
Theorem vertical_displacement t p st st' :
  well_shaped cfg st = true →
  (S t < time_steps cfg)%nat → (p < num_parcels cfg)%nat →
  step cfg ds info t st = Some st' →
  let tidx := (start_time_step cfg - Z.of_nat t)%Z in
  let dt := time_step_length info in
  let w := sample3 (grid_shape ds) (winterp ds tidx) zero
             (coord_w cfg st t p) in
  entry (zpos_heightASL st') (S t) p
    = (entry (zpos_heightASL st) t p - w * dt)%F
  ∧ ((2 ≤ nz ds)%nat → (2 ≤ ny ds)%nat → (2 ≤ nx ds)%nat →
     winterp ds tidx = full3 (grid_shape ds) zero →
     is_finite dt = true →
     has_nan3 (coord_w cfg st t p) = false →
     entry (zpos_heightASL st') (S t) p = entry (zpos_heightASL st) t p).
Proof.
  intros Hws Ht Hp Hstep tidx dt w.
  destruct (step_entries cfg ds info t p st st' Hws Ht Hp Hstep)
    as (_ & _ & Hh & _).
  split; [done|].
  intros Hnz Hny Hnx Hw Hdt Hnan.
  by apply zero_w_keeps_height.
Qed.

(** C3.  Pass [t] takes the vertical grid spacing by interpolation at the
    position the parcel has before the pass, takes the surface height by
    interpolation at the horizontal position it has after the pass, and
    stores as the new vertical index the new height minus that surface
    height, divided by that spacing (floored by the clip that ends the
    pass). *)
Theorem vertical_index_update t p st st' :
  well_shaped cfg st = true →
  (S t < time_steps cfg)%nat → (p < num_parcels cfg)%nat →
  step cfg ds info t st = Some st' →
  let before :=
    ((entry (zpos st) t p - half)%F, (entry (ypos st) t p - half)%F,
     (entry (xpos st) t p - half)%F) in
  let after :=
    ((entry (ypos st') (S t) p - half)%F,
     (entry (xpos st') (S t) p - half)%F) in
  let spacing :=
    sample3 ((nz ds - 1)%nat, ny ds, nx ds) (vert_resolution info) NaN
      before in
  let surface_height :=
    sample2 (ny ds, nx ds) (surface_grid ds) NaN after in
  let index :=
    ((entry (zpos_heightASL st') (S t) p - surface_height) / spacing)%F in
  entry (zpos_vert_res st') t p = spacing
  ∧ entry (zpos st') (S t) p = clip_min (zpos_min cfg) index
  ∧ (fle (zpos_min cfg) index = true → entry (zpos st') (S t) p = index).
Proof.
  intros Hws Ht Hp Hstep before after spacing surface_height index.
  destruct (step_entries cfg ds info t p st st' Hws Ht Hp Hstep)
    as (_ & _ & _ & Hr & Hz & _).
  rewrite (coord_scalar cfg) in Hr by (done || lia).
  assert (entry (zpos st') (S t) p = clip_min (zpos_min cfg) index) as Hclip.
  { rewrite Hz. subst index surface_height after. by rewrite Hr. }
  split; [done|]. split; [done|].
  intros Hle. rewrite Hclip. unfold clip_min.
  destruct index as [q| | |], (zpos_min cfg) as [m| | |];
    simpl in *; try done.
  apply bool_decide_eq_true in Hle.
  by rewrite bool_decide_eq_false_2 by (by apply Qcle_not_lt).
Qed.

End Displacement.

(** ** The statements on the test domains *)

Section Instances.

Import Scenario.

Local Ltac concrete :=
  first [lia | reflexivity | vm_compute; reflexivity | vm_compute; lia].

Lemma interpn3_at_grid_point_cube :
  interpn3 (3, 3, 3)%nat cube [(of_Z 1, of_Z 2, of_Z 0)] false NaN
  = Some [get3 cube 1 2 0].
Proof. apply interpn3_at_grid_point; concrete. Defined.

Lemma velocity_query_coordinates_staggered :
  let cfg := one_parcel "Y" (of_Z 2) in
  let st := seeded cfg flat in
  let x := entry (xpos st) 0 0 in
  let y := entry (ypos st) 0 0 in
  let z := entry (zpos st) 0 0 in
  coord_u cfg st 0 0 = ((z - half)%F, (y - half)%F, x)
  ∧ coord_v cfg st 0 0 = ((z - half)%F, y, (x - half)%F)
  ∧ coord_w cfg st 0 0 = (z, (y - half)%F, (x - half)%F).
Proof.
  refine (proj1 (velocity_query_coordinates (one_parcel "Y" (of_Z 2))
                   (seeded (one_parcel "Y" (of_Z 2)) flat) 0 0 _ _ _) _);
    concrete.
Defined.

Lemma horizontal_displacement_flat :
  let cfg := one_parcel "N" (of_Z 2) in
  entry (ypos (after 1 cfg flat)) 1 0 = entry (ypos (seeded cfg flat)) 0 0.
Proof.
  refine (proj2 (horizontal_displacement (one_parcel "N" (of_Z 2)) flat
                   (info flat) 0 0 (seeded (one_parcel "N" (of_Z 2)) flat)
                   (after 1 (one_parcel "N" (of_Z 2)) flat) _ _ _ _)
            _ _ _ _ _ _ _); concrete.
Defined.

Lemma vertical_displacement_plateau :
  let cfg := one_parcel "N" (of_Z 2) in
  entry (zpos_heightASL (after 1 cfg plateau)) 1 0
  = entry (zpos_heightASL (seeded cfg plateau)) 0 0.
Proof.
  refine (proj2 (vertical_displacement (one_parcel "N" (of_Z 2)) plateau
                   (info plateau) 0 0
                   (seeded (one_parcel "N" (of_Z 2)) plateau)
                   (after 1 (one_parcel "N" (of_Z 2)) plateau) _ _ _ _)
            _ _ _ _ _ _); concrete.
Defined.

Lemma vertical_index_update_plateau :
  let cfg := one_parcel "N" (of_Z 2) in
  let st := seeded cfg plateau in
  let st' := after 1 cfg plateau in
  let before :=
    ((entry (zpos st) 0 0 - half)%F, (entry (ypos st) 0 0 - half)%F,
     (entry (xpos st) 0 0 - half)%F) in
  let after :=
    ((entry (ypos st') 1 0 - half)%F, (entry (xpos st') 1 0 - half)%F) in
  let spacing :=
    sample3 (3, 16, 16)%nat (vert_resolution (info plateau)) NaN before in
  let surface_height :=
    sample2 (16, 16)%nat (surface_grid plateau) NaN after in
  let index :=
    ((entry (zpos_heightASL st') 1 0 - surface_height) / spacing)%F in
  entry (zpos_vert_res st') 0 0 = spacing
  ∧ entry (zpos st') 1 0 = clip_min (zpos_min cfg) index
  ∧ (fle (zpos_min cfg) index = true → entry (zpos st') 1 0 = index).
Proof.
  refine (vertical_index_update (one_parcel "N" (of_Z 2)) plateau
            (info plateau) 0 0 (seeded (one_parcel "N" (of_Z 2)) plateau)
            (after 1 (one_parcel "N" (of_Z 2)) plateau) _ _ _ _); concrete.
Defined.

End Instances.

(** ** The whole loop and the run *)

Section Loop.

Context (cfg : Config) (ds : Dataset).

Lemma calculate_trajectories_total info n st :
  is_Some (calculate_trajectories cfg ds info n st).
Proof.
  induction n as [|n [st1 IH]]; simpl; [eauto|].
  rewrite IH. simpl. apply step_total.
Qed.

Lemma calculate_trajectories_well_shaped info n st st' :
  well_shaped cfg st = true → (n < time_steps cfg)%nat →
  calculate_trajectories cfg ds info n st = Some st' →
  well_shaped cfg st' = true.
Proof.
  revert st'. induction n as [|n IH]; simpl; intros st' Hws Hn Hrun.
  - by simplify_eq.
  - destruct (calculate_trajectories cfg ds info n st) as [st1|] eqn:Hn1;
      [|done].
    simpl in Hrun. eapply step_well_shaped; [|exact Hn|exact Hrun].
    apply IH; [done|lia|done].
Qed.

(** The passes [0 .. n-1] write the slices [0 .. n-1] of [zpos_vert_res]
    and no other. *)
Lemma calculate_trajectories_vert_res info n st st' r :
  calculate_trajectories cfg ds info n st = Some st' → (n ≤ r)%nat →
  zpos_vert_res st' !! r = zpos_vert_res st !! r.
Proof.
  revert st'. induction n as [|n IH]; simpl; intros st' Hrun Hr.
  - by simplify_eq.
  - destruct (calculate_trajectories cfg ds info n st) as [st1|] eqn:Hn1;
      [|done].
    simpl in Hrun.
    destruct (step_components cfg ds info n st1 st' Hrun)
      as (_ & _ & _ & Er & _).
    rewrite Er, list_lookup_insert_ne by lia. apply IH; [done|lia].
Qed.

(** After at least one pass, [var1] is the snapshot the last pass fetched. *)
Lemma calculate_trajectories_var1 info n st st' :
  calculate_trajectories cfg ds info (S n) st = Some st' →
  var1 st' = Some (scalar ds (var_name1 cfg)
                     (start_time_step cfg - Z.of_nat n)%Z).
Proof.
  simpl. destruct (calculate_trajectories cfg ds info n st) as [st1|];
    [|done].
  simpl. intros Hstep.
  by destruct (step_components cfg ds info n st1 st' Hstep)
    as (_ & _ & _ & _ & _ & _ & Ev).
Qed.

(** The pieces of a run that ended without an exception. *)
Lemma run_inv st :
  run cfg ds = Some st →
  ∃ info st0 st1 st2,
    model_output_info ds = Some info
    ∧ initialize_parcels cfg = Some st0
    ∧ initial_height ds st0 = Some st1
    ∧ calculate_trajectories cfg ds info (time_steps cfg - 1) st1 = Some st2
    ∧ final_time_step cfg ds st2 = Some st.
Proof.
  unfold run. intros Hrun.
  destruct (model_output_info ds) as [info|] eqn:Hinfo; [|done].
  cbn [mbind option_bind] in Hrun.
  destruct (initialize_parcels cfg) as [st0|] eqn:Hinit; [|done].
  cbn [mbind option_bind] in Hrun.
  destruct (initial_height ds st0) as [st1|] eqn:Hseed; [|done].
  cbn [mbind option_bind] in Hrun.
  destruct (calculate_trajectories cfg ds info (time_steps cfg - 1) st1)
    as [st2|] eqn:Hloop; [|done]. cbn [mbind option_bind] in Hrun.
  exists info, st0, st1, st2. repeat split; done.
Qed.

Lemma initialize_parcels_inv st0 :
  initialize_parcels cfg = Some st0 →
  time_steps cfg ≠ 0%nat ∧ zpos_vert_res st0 = zeros cfg ∧ var1 st0 = None
  ∧ well_shaped cfg st0 = true.
Proof.
  unfold initialize_parcels. case_decide as HT; [done|].
  intros [= <-]. cbn [zpos_vert_res var1].
  split; [done|]. split; [done|]. split; [done|].
  assert (has_shape2 (time_steps cfg, num_parcels cfg) (zeros cfg) = true)
    as Hz.
  { apply has_shape2_intro; unfold zeros.
    - by rewrite length_replicate.
    - intros t row [-> _]%lookup_replicate. by rewrite length_replicate. }
  unfold well_shaped. cbn [xpos ypos zpos zpos_heightASL zpos_vert_res
                           variable1].
  rewrite !andb_true_iff. repeat split; try done;
    apply has_shape2_insert; try done;
    by rewrite length_fmap, length_seq.
Qed.

Lemma initial_height_inv st0 st1 :
  initial_height ds st0 = Some st1 →
  xpos st1 = xpos st0 ∧ ypos st1 = ypos st0 ∧ zpos st1 = zpos st0
  ∧ zpos_vert_res st1 = zpos_vert_res st0 ∧ var1 st1 = var1 st0
  ∧ variable1 st1 = variable1 st0
  ∧ zpos_heightASL st1 =
      <[0%nat := sample3 (grid_shape ds) (zh ds) zero
                   <$> coords3 (length (minus_half (xpos st0 !!! 0%nat)))
                         (minus_half (zpos st0 !!! 0%nat))
                         (minus_half (ypos st0 !!! 0%nat))
                         (minus_half (xpos st0 !!! 0%nat))]>
        (zpos_heightASL st0).
Proof.
  unfold initial_height. cbn [interpn3 andb mbind option_bind].
  by intros [= <-].
Qed.

Lemma final_time_step_inv st2 st :
  final_time_step cfg ds st2 = Some st →
  ∃ field,
    var1 st2 = Some field
    ∧ xpos st = xpos st2 ∧ ypos st = ypos st2 ∧ zpos st = zpos st2
    ∧ zpos_heightASL st = zpos_heightASL st2
    ∧ zpos_vert_res st = zpos_vert_res st2
    ∧ variable1 st =
        <[(time_steps cfg - 1)%nat :=
            sample3 (grid_shape ds) field NaN
              <$> coords3
                    (length (minus_half (xpos st2 !!! (time_steps cfg - 1)%nat)))
                    (minus_half (zpos st2 !!! (time_steps cfg - 1)%nat))
                    (minus_half (ypos st2 !!! (time_steps cfg - 1)%nat))
                    (minus_half (xpos st2 !!! (time_steps cfg - 1)%nat))]>
          (variable1 st2).
Proof.
  unfold final_time_step. destruct (var1 st2) as [field|]; [|done].
  cbn [interpn3 andb mbind option_bind]. intros [= <-].
  exists field. by cbn.
Qed.

(** A run that ends without an exception made at least one pass: with a
    single time slice the loop is empty and cell 21 finds [var1]
    unbound. *)
Lemma run_time_steps st : run cfg ds = Some st → (2 ≤ time_steps cfg)%nat.
Proof.
  intros (info & st0 & st1 & st2 & _ & H0 & H1 & Hloop & Hfin)%run_inv.
  destruct (initialize_parcels_inv st0 H0) as (HT & _ & Hv0 & _).
  destruct (initial_height_inv st0 st1 H1) as (_ & _ & _ & _ & Hv1 & _).
  destruct (final_time_step_inv st2 st Hfin) as (field & Hv2 & _).
  destruct (decide (time_steps cfg = 1%nat)) as [E|]; [|lia].
  rewrite E in Hloop. simpl in Hloop. simplify_eq. congruence.
Qed.

End Loop.

(** ** What a finished run holds *)

Section RunFacts.

Context (cfg : Config) (ds : Dataset).

(** C10.  The vertical spacing array is written by pass [t] at slice [t]
    only, for t = 0 .. time_steps - 2, and cell 21 does not write it: when
    the run ends, its last slice still holds the zeros of the allocation
    for every parcel. *)
Theorem last_vert_res_slice_is_zero st :
  run cfg ds = Some st →
  zpos_vert_res st !! (time_steps cfg - 1)%nat
  = Some (replicate (num_parcels cfg) zero).
Proof.
  intros Hrun. pose proof (run_time_steps cfg ds st Hrun) as HT.
  destruct (run_inv cfg ds st Hrun)
    as (info & st0 & st1 & st2 & _ & H0 & H1 & Hloop & Hfin).
  destruct (initialize_parcels_inv cfg st0 H0) as (_ & Hr0 & _).
  destruct (initial_height_inv ds st0 st1 H1) as (_ & _ & _ & Hr1 & _).
  destruct (final_time_step_inv cfg ds st2 st Hfin)
    as (field & _ & _ & _ & _ & _ & Hr & _).
  rewrite Hr.
  rewrite (calculate_trajectories_vert_res cfg ds info _ st1 st2 _ Hloop)
    by lia.
  rewrite Hr1, Hr0. unfold zeros. apply lookup_replicate_2. lia.
Qed.

(** The snapshot cell 21 samples: the one fetched by the last pass of the
    loop, at time index start_time_step - (time_steps - 2). *)
Lemma final_sample_snapshot st :
  run cfg ds = Some st →
  let t := (time_steps cfg - 1)%nat in
  let field :=
    scalar ds (var_name1 cfg)
      (start_time_step cfg - (Z.of_nat (time_steps cfg) - 2))%Z in
  variable1 st !! t
  = Some (sample3 (grid_shape ds) field NaN
            <$> coords3 (length (minus_half (xpos st !!! t)))
                  (minus_half (zpos st !!! t)) (minus_half (ypos st !!! t))
                  (minus_half (xpos st !!! t))).
Proof.
  intros Hrun t field. pose proof (run_time_steps cfg ds st Hrun) as HT.
  destruct (run_inv cfg ds st Hrun)
    as (info & st0 & st1 & st2 & _ & H0 & H1 & Hloop & Hfin).
  destruct (initialize_parcels_inv cfg st0 H0) as (_ & _ & _ & Hws0).
  assert (well_shaped cfg st1 = true) as Hws1.
  { destruct (initial_height_inv ds st0 st1 H1)
      as (Ex & Ey & Ez & Er & _ & Ev & Eh).
    destruct (well_shaped_unfold cfg st0 Hws0) as (Hx & Hy & Hz & Hh & ? & ?).
    unfold well_shaped. rewrite Ex, Ey, Ez, Er, Ev, Eh.
    rewrite !andb_true_iff. repeat split; try done.
    apply has_shape2_insert; [done|].
    pose proof (has_shape2_row _ _ _ 0%nat Hx ltac:(lia)).
    simpl_length. lia. }
  pose proof (calculate_trajectories_well_shaped cfg ds info
                (time_steps cfg - 1) st1 st2 Hws1 ltac:(lia) Hloop) as Hws2.
  destruct (well_shaped_unfold cfg st2 Hws2) as (_ & _ & _ & _ & _ & Hv2).
  destruct (final_time_step_inv cfg ds st2 st Hfin)
    as (fld & Hvar & Ex & Ey & Ez & _ & _ & Ev).
  replace (time_steps cfg - 1)%nat with (S (time_steps cfg - 2)) in Hloop
    by lia.
  rewrite (calculate_trajectories_var1 cfg ds info _ st1 st2 Hloop) in Hvar.
  simplify_eq. rewrite Ev, Ex, Ey, Ez. subst t field.
  rewrite list_lookup_insert_eq
    by (rewrite (has_shape2_length _ _ _ Hv2); lia).
  by replace (Z.of_nat (time_steps cfg - 2))
    with (Z.of_nat (time_steps cfg) - 2)%Z by lia.
Qed.

End RunFacts.

Section RunInstances.

Import Scenario.

(** C10 on the flat test domain. *)
Lemma last_vert_res_slice_is_zero_flat :
  zpos_vert_res (finished (one_parcel "N" (of_Z 2)) flat) !! 4%nat
  = Some [zero].
Proof.
  apply (last_vert_res_slice_is_zero (one_parcel "N" (of_Z 2)) flat).
  vm_compute. reflexivity.
Defined.

(** C6.  On the flat test domain the tracked scalar at time index [i] is
    [i] everywhere and the run starts at index 10 with five slices.  The
    last slice belongs to time index 10 - 4 = 6, whose snapshot gives 6 at
    the parcel's final position; cell 21 records 7, the value of the
    snapshot of index 10 - 3 = 7 that the last pass of the loop left in
    [var1]. *)
Lemma final_sample_is_stale :
  let cfg := one_parcel "N" (of_Z 2) in
  let st := finished cfg flat in
  run cfg flat = Some st
  ∧ entry (variable1 st) 4 0 = of_Z 7
  ∧ sample3 (grid_shape flat) (scalar flat "th" (10 - 4)) NaN (coord st 4 0)
    = of_Z 6.
Proof.
  split; [vm_compute; reflexivity|].
  split; apply (bool_decide_unpack _); vm_compute; exact I.
Qed.

End RunInstances.

(** ** The surface clip and the fill values *)

Section Boundary.

Context (cfg : Config) (ds : Dataset) (info : ModelInfo).

Lemma zpos_min_flag :
  zpos_min cfg = if decide (staggered cfg = "Y") then half else zero.
Proof.
  unfold zpos_min. case_decide as Hflag.
  - apply stagger_on_Y in Hflag. by rewrite Hflag.
  - destruct (stagger_on cfg) eqn:Hon; [|done].
    by apply stagger_on_Y in Hon.
Qed.

(** C4, as the code has it.  After every pass each entry of the vertical
    index array, at every time slice and for every parcel, is either
    not-a-number or at least the floor: 0.5 with the stagger flag set, 0
    otherwise.  No entry is below the floor. *)
Theorem clip_floor t st st' (r p : nat) (row : list fnum) (a : fnum) :
  step cfg ds info t st = Some st' →
  zpos st' !! r = Some row → row !! p = Some a →
  let floor := if decide (staggered cfg = "Y") then half else zero in
  (a = NaN ∨ fle floor a = true) ∧ flt a floor = false.
Proof.
  intros Hstep Hrow Ha floor.
  destruct (step_components cfg ds info t st st' Hstep)
    as (_ & _ & _ & _ & Ez & _).
  rewrite Ez, list_lookup_fmap in Hrow.
  destruct (_ !! r) as [row0|]; [|done]. simpl in Hrow. simplify_eq.
  rewrite list_lookup_fmap in Ha.
  destruct (row0 !! p) as [a0|]; [|done]. simpl in Ha. simplify_eq.
  rewrite zpos_min_flag. fold floor.
  assert (is_nan floor = false) as Hfl by (subst floor; by case_decide).
  split; [by apply clip_min_spec|].
  unfold clip_min. destruct (is_nan a0) eqn:Hnan; [done|].
  destruct (flt a0 floor) eqn:Hlt; [|done].
  destruct floor as [q| | |]; try done. simpl.
  apply bool_decide_eq_false. intros Hq. by apply Qclt_not_eq in Hq.
Qed.

(** C5, as the code has it.  A pass raises no exception.  A query point
    outside the index bounds gives not-a-number for u, v and the tracked
    scalar, so the new x, the new y and the recorded scalar are
    not-a-number; the vertical spacing and the surface height are filled
    with not-a-number as well.  For w the fill value is 0, so the new
    height is the old one minus 0 * dt. *)
Theorem out_of_bounds_fill t p st :
  well_shaped cfg st = true →
  (S t < time_steps cfg)%nat → (p < num_parcels cfg)%nat →
  ∃ st', step cfg ds info t st = Some st'
    ∧ (out_of_bounds3 (grid_shape ds) (coord_u cfg st t p) = true →
       entry (xpos st') (S t) p = NaN)
    ∧ (out_of_bounds3 (grid_shape ds) (coord_v cfg st t p) = true →
       entry (ypos st') (S t) p = NaN)
    ∧ (out_of_bounds3 (grid_shape ds) (coord st t p) = true →
       entry (variable1 st') t p = NaN)
    ∧ (out_of_bounds3 ((nz ds - 1)%nat, ny ds, nx ds) (coord st t p) = true →
       entry (zpos_vert_res st') t p = NaN)
    ∧ (out_of_bounds2 (ny ds, nx ds)
         ((entry (ypos st') (S t) p - half)%F,
          (entry (xpos st') (S t) p - half)%F) = true →
       entry (zpos st') (S t) p = NaN)
    ∧ (out_of_bounds3 (grid_shape ds) (coord_w cfg st t p) = true →
       has_nan3 (coord_w cfg st t p) = false →
       entry (zpos_heightASL st') (S t) p
       = (entry (zpos_heightASL st) t p - zero * time_step_length info)%F).
Proof.
  intros Hws Ht Hp.
  destruct (step_total cfg ds info t st) as [st' Hstep].
  exists st'. split; [done|].
  destruct (step_entries cfg ds info t p st st' Hws Ht Hp Hstep)
    as (Hx & Hy & Hh & Hr & Hz & Hv).
  split; [|split; [|split; [|split; [|split]]]].
  - rewrite Hx. unfold sample3. intros ->.
    by destruct (entry (xpos st) t p).
  - rewrite Hy. unfold sample3. intros ->.
    by destruct (entry (ypos st) t p).
  - rewrite Hv. unfold sample3. by intros ->.
  - rewrite Hr. unfold sample3. by intros ->.
  - rewrite Hz. unfold sample2. intros ->.
    by destruct (entry (zpos_heightASL st') (S t) p).
  - rewrite Hh. unfold sample3. by intros ->.
Qed.

End Boundary.

Section BoundaryInstances.

Import Scenario.

Local Ltac concrete :=
  first [lia | reflexivity | vm_compute; reflexivity | vm_compute; lia].

Local Ltac evaluate := apply (bool_decide_unpack _); vm_compute; exact I.

(** On the domain that ends east of the seed the first pass carries the
    parcel to x = 10.6, where the surface height query (10.1) is out of
    bounds: the new vertical index is not-a-number, the clip leaves it so,
    and it is not at least the floor. *)
Lemma clip_leaves_nan :
  let cfg := one_parcel "N" (of_Z 2) in
  step cfg edge (info edge) 0 (seeded cfg edge) = Some (after 1 cfg edge)
  ∧ entry (zpos (after 1 cfg edge)) 1 0 = NaN
  ∧ fle (zpos_min cfg) (entry (zpos (after 1 cfg edge)) 1 0) = false.
Proof. repeat split; vm_compute; reflexivity. Qed.

Lemma clip_floor_plateau :
  let cfg := one_parcel "Y" (of_Z 2) in
  let a := entry (zpos (after 1 cfg plateau)) 1 0 in
  (a = NaN ∨ fle half a = true) ∧ flt a half = false.
Proof.
  refine (clip_floor (one_parcel "Y" (of_Z 2)) plateau (info plateau) 0
            (seeded (one_parcel "Y" (of_Z 2)) plateau)
            (after 1 (one_parcel "Y" (of_Z 2)) plateau) 1 0
            (zpos (after 1 (one_parcel "Y" (of_Z 2)) plateau) !!! 1%nat)
            (entry (zpos (after 1 (one_parcel "Y" (of_Z 2)) plateau)) 1 0)
            _ _ _); concrete.
Defined.

(** With the stagger flag set, a parcel seeded at z = 3.2 on four levels
    queries w at z = 3.2, above the last index 3, while its u and v queries
    (z = 2.7) are inside.  With an updraft of 1 m/s everywhere the pass
    leaves its height at 320 m: the fill value of the w interpolation is 0,
    not not-a-number. *)
Lemma w_fill_is_zero :
  let cfg := one_parcel "Y" (Fin (Q2Qc (32 # 10))) in
  let st := seeded cfg updraft in
  let st' := after 1 cfg updraft in
  step cfg updraft (info updraft) 0 st = Some st'
  ∧ out_of_bounds3 (grid_shape updraft) (coord_w cfg st 0 0) = true
  ∧ has_nan3 (coord_w cfg st 0 0) = false
  ∧ entry (zpos_heightASL st) 0 0 = of_Z 320
  ∧ entry (zpos_heightASL st') 1 0 = of_Z 320
  ∧ entry (zpos_heightASL st') 1 0 ≠ NaN.
Proof.
  split; [vm_compute; reflexivity|].
  split; [vm_compute; reflexivity|].
  split; [vm_compute; reflexivity|].
  repeat split; evaluate.
Qed.

Lemma out_of_bounds_fill_updraft :
  let cfg := one_parcel "Y" (Fin (Q2Qc (32 # 10))) in
  let st := seeded cfg updraft in
  ∃ st', step cfg updraft (info updraft) 0 st = Some st'
    ∧ (out_of_bounds3 (grid_shape updraft) (coord_u cfg st 0 0) = true →
       entry (xpos st') 1 0 = NaN)
    ∧ (out_of_bounds3 (grid_shape updraft) (coord_v cfg st 0 0) = true →
       entry (ypos st') 1 0 = NaN)
    ∧ (out_of_bounds3 (grid_shape updraft) (coord st 0 0) = true →
       entry (variable1 st') 0 0 = NaN)
    ∧ (out_of_bounds3 (3, 16, 16)%nat (coord st 0 0) = true →
       entry (zpos_vert_res st') 0 0 = NaN)
    ∧ (out_of_bounds2 (16, 16)%nat
         ((entry (ypos st') 1 0 - half)%F, (entry (xpos st') 1 0 - half)%F)
       = true →
       entry (zpos st') 1 0 = NaN)
    ∧ (out_of_bounds3 (grid_shape updraft) (coord_w cfg st 0 0) = true →
       has_nan3 (coord_w cfg st 0 0) = false →
       entry (zpos_heightASL st') 1 0
       = (entry (zpos_heightASL st) 0 0
          - zero * time_step_length (info updraft))%F).
Proof.
  refine (out_of_bounds_fill (one_parcel "Y" (Fin (Q2Qc (32 # 10)))) updraft
            (info updraft) 0 0
            (seeded (one_parcel "Y" (Fin (Q2Qc (32 # 10)))) updraft) _ _ _);
    concrete.
Defined.

End BoundaryInstances.

(** ** Levels and their spacing *)

Section LevelDifferences.

Local Open Scope Z_scope.

Lemma has_shape3_plane nz ny nx (a : field3) (k : nat) :
  has_shape3 (nz, ny, nx) a = true → (k < nz)%nat →
  length a = nz ∧ has_shape2 (ny, nx) (a !!! k) = true.
Proof.
  intros [Hlen Hpl]%andb_prop Hk.
  apply bool_decide_eq_true in Hlen. simpl in Hlen. split; [done|].
  destruct (lookup_lt_is_Some_2 a k) as [pl Hplane]; [lia|].
  rewrite (list_lookup_total_correct _ _ _ Hplane).
  exact (forallb_lookup _ _ _ _ Hpl Hplane).
Qed.

Lemma get3_diff_levels nz ny nx (a : field3) k j i :
  has_shape3 (nz, ny, nx) a = true →
  0 ≤ k < Z.of_nat nz - 1 → 0 ≤ j < Z.of_nat ny → 0 ≤ i < Z.of_nat nx →
  get3 (diff_levels a) k j i = (get3 a (k + 1) j i - get3 a k j i)%F.
Proof.
  intros Ha Hk Hj Hi.
  destruct (has_shape3_plane nz ny nx a (Z.to_nat k) Ha ltac:(lia))
    as [Lk Hlo].
  destruct (has_shape3_plane nz ny nx a (Z.to_nat (k + 1)) Ha ltac:(lia))
    as [_ Hhi].
  pose proof (has_shape2_length _ _ _ Hlo) as Llo.
  pose proof (has_shape2_length _ _ _ Hhi) as Lhi.
  pose proof (has_shape2_row _ _ _ (Z.to_nat j) Hlo ltac:(lia)) as Rlo.
  pose proof (has_shape2_row _ _ _ (Z.to_nat j) Hhi ltac:(lia)) as Rhi.
  unfold get3, diff_levels.
  rewrite lookup_total_zip_with
    by (rewrite ?length_drop, ?length_take; lia).
  rewrite lookup_total_drop, lookup_total_take by lia.
  replace (1 + Z.to_nat k)%nat with (Z.to_nat (k + 1)) by lia.
  rewrite decide_True by lia.
  rewrite lookup_total_zip_with by lia.
  by rewrite lookup_total_zip_with by lia.
Qed.

End LevelDifferences.

(** ** Index to height and back *)

Section Conversions.

Context (cfg : Config) (ds : Dataset).

(** Cell 17 stores [height_from_index] of every seed. *)
Lemma seed_height st0 st1 p :
  initialize_parcels cfg = Some st0 → initial_height ds st0 = Some st1 →
  (p < num_parcels cfg)%nat →
  entry (zpos_heightASL st1) 0 p = height_from_index ds (coord st1 0 p).
Proof.
  intros H0 H1 Hp.
  destruct (initialize_parcels_inv cfg st0 H0) as (HT & _ & _ & Hws0).
  destruct (well_shaped_unfold cfg st0 Hws0) as (Hx & Hy & Hz & Hh & _).
  destruct (initial_height_inv ds st0 st1 H1)
    as (Ex & Ey & Ez & _ & _ & _ & Eh).
  pose proof (has_shape2_row _ _ _ 0%nat Hx ltac:(lia)) as Lx.
  pose proof (has_shape2_length _ _ _ Hh) as Th.
  rewrite Eh, entry_insert_eq by lia.
  unfold coord, height_from_index. rewrite Ex, Ey, Ez.
  rewrite (list_lookup_total_fmap _ _ p) by (simpl_length; lia).
  by rewrite length_minus_half.
Qed.

(** A seed outside the index bounds gets the height 0: the fill value of
    cell 17 is 0. *)
Lemma seed_height_fill st0 st1 p :
  initialize_parcels cfg = Some st0 → initial_height ds st0 = Some st1 →
  (p < num_parcels cfg)%nat →
  out_of_bounds3 (grid_shape ds) (coord st1 0 p) = true →
  entry (zpos_heightASL st1) 0 p = zero.
Proof.
  intros H0 H1 Hp Hoob. rewrite (seed_height st0 st1 p H0 H1 Hp).
  unfold height_from_index, sample3. by rewrite Hoob.
Qed.

(** Cell 19 stores [index_from_height] of the new height, floored. *)
Lemma step_index_from_height info t p st st' :
  well_shaped cfg st = true →
  (S t < time_steps cfg)%nat → (p < num_parcels cfg)%nat →
  step cfg ds info t st = Some st' →
  entry (zpos st') (S t) p =
  clip_min (zpos_min cfg)
    (index_from_height ds info (entry (zpos_heightASL st') (S t) p)
       (coord st t p)
       ((entry (ypos st') (S t) p - half)%F,
        (entry (xpos st') (S t) p - half)%F)).
Proof.
  intros Hws Ht Hp Hstep.
  destruct (step_entries cfg ds info t p st st' Hws Ht Hp Hstep)
    as (_ & _ & _ & Hr & Hz & _).
  rewrite Hz, Hr. reflexivity.
Qed.

End Conversions.

Section ConversionInstances.

Import Scenario.

Local Ltac evaluate := apply (bool_decide_unpack _); vm_compute; exact I.

(** C9.  Converting a vertical index to a height and the height back
    does not reproduce the index where the level spacing changes with
    height.  On the stretched grid (levels at 50, 150, 350, 750 m over flat
    ground) the index 1.5 converts to 150 m, the spacing interpolated
    there is 200 m, and 150 m converts back to 150 / 200 = 0.75.  In the
    run, a parcel seeded at z = 1.5 in still air is at z = 0.75 after the
    first pass, in exact arithmetic and in binary64 alike, while its height
    stays at 150 m. *)
Lemma round_trip_fails_on_stretched_grid :
  let z := Fin (Q2Qc (3 # 2)) in
  let c := ((z - half)%F, (of_Z 10 - half)%F, (of_Z 10 - half)%F) in
  let cfg := one_parcel "N" z in
  in_range3 (3, 16, 16)%nat c = true
  ∧ height_from_index stretched c = of_Z 150
  ∧ index_from_height stretched (info stretched)
      (height_from_index stretched c) c
      ((of_Z 10 - half)%F, (of_Z 10 - half)%F) = Fin (Q2Qc (3 # 4))
  ∧ Fin (Q2Qc (3 # 4)) ≠ z
  ∧ coord (seeded cfg stretched) 0 0 = c
  ∧ step cfg stretched (info stretched) 0 (seeded cfg stretched)
    = Some (after 1 cfg stretched)
  ∧ entry (zpos (after 1 cfg stretched)) 1 0 = Fin (Q2Qc (3 # 4))
  ∧ (λ st, (Binary64.zpos st !! 0%nat, Binary64.zpos st !! 1%nat,
            Binary64.zpos_heightASL st !! 0%nat,
            Binary64.zpos_heightASL st !! 1%nat))
      <$> Binary64.run (Binary64.one_parcel 10 1.5) Binary64.stretched
    = Some (Some [1.5%float], Some [0.75%float],
            Some [150%float], Some [150%float]).
Proof.
  split; [vm_compute; reflexivity|].
  split; [evaluate|]. split; [evaluate|]. split; [evaluate|].
  split; [evaluate|]. split; [vm_compute; reflexivity|].
  split; [evaluate|]. vm_compute. reflexivity.
Qed.

End ConversionInstances.

(** ** Still air over several passes *)

Section StillAir.

Context (cfg : Config) (ds : Dataset) (info : ModelInfo).

(** With w = 0 at every time index the loop reads, the height of a parcel
    is the same at every time slice written so far, as long as its
    position was a number at the start of every pass. *)
Lemma zero_w_keeps_height_throughout n p st st' :
  well_shaped cfg st = true →
  (n < time_steps cfg)%nat → (p < num_parcels cfg)%nat →
  (2 ≤ nz ds)%nat → (2 ≤ ny ds)%nat → (2 ≤ nx ds)%nat →
  is_finite (time_step_length info) = true →
  (∀ k, (k < n)%nat →
        winterp ds (start_time_step cfg - Z.of_nat k)%Z
        = full3 (grid_shape ds) zero) →
  (∀ k st_k, (k < n)%nat →
             calculate_trajectories cfg ds info k st = Some st_k →
             has_nan3 (coord_w cfg st_k k p) = false) →
  calculate_trajectories cfg ds info n st = Some st' →
  ∀ k, (k ≤ n)%nat →
       entry (zpos_heightASL st') k p = entry (zpos_heightASL st) 0 p.
Proof.
  intros Hws Hn Hp Hnz Hny Hnx Hdt. revert st'.
  induction n as [|n IH]; intros st' Hw Hnan Hrun k Hk.
  - simpl in Hrun. simplify_eq. by replace k with 0%nat by lia.
  - simpl in Hrun.
    destruct (calculate_trajectories cfg ds info n st) as [st1|] eqn:Hn1;
      [|done].
    simpl in Hrun.
    pose proof (calculate_trajectories_well_shaped cfg ds info n st st1 Hws
                  ltac:(lia) Hn1) as Hws1.
    assert (∀ j, (j ≤ n)%nat →
              entry (zpos_heightASL st1) j p = entry (zpos_heightASL st) 0 p)
      as IH'.
    { apply IH; [lia| |  |done].
      - intros j Hj. apply Hw. lia.
      - intros j st_j Hj. apply Hnan. lia. }
    destruct (decide (k = S n)) as [->|Hne].
    + rewrite (zero_w_keeps_height cfg ds info n p st1 st') by
        (done || (apply Hw; lia) || (by apply (Hnan n st1); [lia|])).
      by apply IH'.
    + destruct (step_components cfg ds info n st1 st' Hrun)
        as (_ & _ & Eh & _).
      rewrite Eh, entry_insert_ne by lia. apply IH'. lia.
Qed.

End StillAir.

(** ** The runs on the test domains *)

Section Trajectories.

Import Scenario.

Local Ltac evaluate := apply (bool_decide_unpack _); vm_compute; exact I.

(** The end-to-end scenario over flat ground: y, the vertical index and
    the height stay. *)
Lemma flat_trajectory :
  let st := finished (one_parcel "N" (of_Z 2)) flat in
  run (one_parcel "N" (of_Z 2)) flat = Some st
  ∧ ypos st = [[of_Z 10]; [of_Z 10]; [of_Z 10]; [of_Z 10]; [of_Z 10]]
  ∧ zpos st = [[of_Z 2]; [of_Z 2]; [of_Z 2]; [of_Z 2]; [of_Z 2]]
  ∧ zpos_heightASL st
    = [[of_Z 200]; [of_Z 200]; [of_Z 200]; [of_Z 200]; [of_Z 200]].
Proof.
  split; [vm_compute; reflexivity|]. repeat split; evaluate.
Qed.

(** The same over the plateau: the height above sea level stays at 700 m
    and the vertical index, counted from the surface at 500 m, at 2. *)
Lemma plateau_trajectory :
  let st := finished (one_parcel "N" (of_Z 2)) plateau in
  run (one_parcel "N" (of_Z 2)) plateau = Some st
  ∧ zpos_heightASL st
    = [[of_Z 700]; [of_Z 700]; [of_Z 700]; [of_Z 700]; [of_Z 700]]
  ∧ zpos st = [[of_Z 2]; [of_Z 2]; [of_Z 2]; [of_Z 2]; [of_Z 2]].
Proof.
  split; [vm_compute; reflexivity|]. repeat split; evaluate.
Qed.

(** The positions the scenario stores, computed in binary64.  With
    u = 10 m/s, v = w = 0, dx = 1000 m and dt = 60 s the parcel seeded at
    (10, 10, 2) has x = 10, 9.4, 8.8, 8.200000000000001, 7.600000000000001
    and y = 10 at the five slices.  The fourth x is not the binary64 number
    nearest to 8.2 = 10 - 3 * 0.6; the difference of the third and the
    fourth, computed in binary64, is 0.5999999999999996 and not 0.6; and
    taken as real numbers no two consecutive x differ by 6/10.  Seeded at
    x = 1 instead, the parcel is at x = 0.4 after one pass, where its query
    point -0.1 is west of the grid: from the next slice on x and y are
    both not-a-number, so y has not stayed at 10. *)
Lemma uniform_flow_positions :
  let inside := Binary64.run (Binary64.one_parcel 10 2) Binary64.flat in
  let leaving := Binary64.run (Binary64.one_parcel 1 2) Binary64.flat in
  Binary64.xpos <$> inside
  = Some [[10]; [9.4]; [8.8]; [8.200000000000001]; [7.600000000000001]]%float
  ∧ Binary64.ypos <$> inside = Some [[10]; [10]; [10]; [10]; [10]]%float
  ∧ (8.200000000000001 =? 8.2)%float = false
  ∧ (8.8 - 8.200000000000001)%float = 0.5999999999999996%float
  ∧ (8.8 - 8.200000000000001 =? 0.6)%float = false
  ∧ ¬ (Binary64.exact 10 - Binary64.exact 9.4 == 6 # 10)%Q
  ∧ ¬ (Binary64.exact 9.4 - Binary64.exact 8.8 == 6 # 10)%Q
  ∧ ¬ (Binary64.exact 8.8 - Binary64.exact 8.200000000000001 == 6 # 10)%Q
  ∧ ¬ (Binary64.exact 8.200000000000001
       - Binary64.exact 7.600000000000001 == 6 # 10)%Q
  ∧ Binary64.xpos <$> leaving
    = Some [[1%float]; [0.4%float]; [PrimFloat.nan]; [PrimFloat.nan];
            [PrimFloat.nan]]
  ∧ Binary64.ypos <$> leaving
    = Some [[10%float]; [10%float]; [PrimFloat.nan]; [PrimFloat.nan];
            [PrimFloat.nan]]
  ∧ (10 =? PrimFloat.nan)%float = false.
Proof.
  repeat split;
    first [ vm_compute; reflexivity
          | intros H; vm_compute in H; discriminate H ].
Qed.

(** Still air does not keep the height of a parcel that leaves the domain.
    On the domain that ends east of the seed w is 0 everywhere; the first
    pass carries the parcel out of the grid, and its height, 200 m at the
    seed, is not-a-number at the fourth time slice. *)
Lemma still_air_height_lost :
  let cfg := one_parcel "N" (of_Z 2) in
  let st := finished cfg edge in
  run cfg edge = Some st
  ∧ winterp edge = (λ _, full3 (grid_shape edge) zero)
  ∧ entry (zpos_heightASL st) 0 0 = of_Z 200
  ∧ entry (zpos_heightASL st) 3 0 = NaN
  ∧ entry (zpos_heightASL st) 3 0 ≠ entry (zpos_heightASL st) 0 0.
Proof.
  split; [vm_compute; reflexivity|]. split; [reflexivity|].
  repeat split; evaluate.
Qed.

(** A stored value is not returned at a grid point that has a missing
    neighbour.  In the 3 x 3 x 3 field with not-a-number at index
    (0, 0, 0), the query at the interior grid point (1, 1, 1) falls in the
    cell between the indices 0 and 1 of every axis; the missing corner
    enters the sum with the weight 0, and the result is not-a-number, not
    the 13 that is stored at (1, 1, 1). *)
Lemma grid_point_next_to_gap :
  let result :=
    interpn3 (3, 3, 3)%nat cube_with_gap [(of_Z 1, of_Z 1, of_Z 1)] false
      zero in
  result = Some [NaN]
  ∧ get3 cube_with_gap 1 1 1 = of_Z 13
  ∧ result ≠ Some [get3 cube_with_gap 1 1 1].
Proof.
  split; [vm_compute; reflexivity|]. split; evaluate.
Qed.

End Trajectories.

(** * Further properties of the notebook *)

(** ** What a pass leaves alone *)

Section Frames.

Context (cfg : Config) (ds : Dataset) (info : ModelInfo).

Lemma step_frame t st st' r :
  step cfg ds info t st = Some st' →
  (r ≠ S t → xpos st' !! r = xpos st !! r)
  ∧ (r ≠ S t → ypos st' !! r = ypos st !! r)
  ∧ (r ≠ S t → zpos_heightASL st' !! r = zpos_heightASL st !! r)
  ∧ (r ≠ t → zpos_vert_res st' !! r = zpos_vert_res st !! r)
  ∧ (r ≠ t → variable1 st' !! r = variable1 st !! r)
  ∧ (r ≠ S t →
     zpos st' !! r
     = (λ row : list fnum, clip_min (zpos_min cfg) <$> row) <$> zpos st !! r).
Proof.
  intros Hstep.
  destruct (step_components cfg ds info t st st' Hstep)
    as (Ex & Ey & Eh & Er & Ez & Ev & _).
  rewrite Ex, Ey, Eh, Er, Ez, Ev.
  repeat split; intros Hne; rewrite ?list_lookup_fmap;
    by rewrite list_lookup_insert_ne by done.
Qed.

(** Slice 0 and the slices after [n] of the positions and heights are as
    they were when the loop has made [n] passes. *)
Lemma calculate_trajectories_frame n st st' r :
  calculate_trajectories cfg ds info n st = Some st' →
  r = 0%nat ∨ (n < r)%nat →
  xpos st' !! r = xpos st !! r ∧ ypos st' !! r = ypos st !! r
  ∧ zpos_heightASL st' !! r = zpos_heightASL st !! r.
Proof.
  revert st'. induction n as [|n IH]; intros st' Hrun Hr; simpl in Hrun.
  - by simplify_eq.
  - destruct (calculate_trajectories cfg ds info n st) as [st_n|] eqn:Hn;
      [|done].
    simpl in Hrun.
    destruct (IH st_n eq_refl ltac:(lia)) as (Hx & Hy & Hh).
    destruct (step_frame n st_n st' r Hrun) as (Fx & Fy & Fh & _).
    rewrite Fx, Fy, Fh by lia. done.
Qed.

End Frames.

(** ** When a run ends, and what shape its arrays have *)

Section RunOutcome.

Context (cfg : Config) (ds : Dataset).

Lemma initial_height_well_shaped st0 st1 :
  well_shaped cfg st0 = true → (0 < time_steps cfg)%nat →
  initial_height ds st0 = Some st1 → well_shaped cfg st1 = true.
Proof.
  intros Hws0 HT H1.
  destruct (initial_height_inv ds st0 st1 H1)
    as (Ex & Ey & Ez & Er & _ & Ev & Eh).
  destruct (well_shaped_unfold cfg st0 Hws0) as (Hx & Hy & Hz & Hh & ? & ?).
  unfold well_shaped. rewrite Ex, Ey, Ez, Er, Ev, Eh.
  rewrite !andb_true_iff. repeat split; try done.
  apply has_shape2_insert; [done|].
  pose proof (has_shape2_row _ _ _ 0%nat Hx HT).
  simpl_length. lia.
Qed.

(** The run cannot end without an exception with fewer than two time
    slices or with fewer than two entries in [ds.xf] or in [ds.time]:
    cell 11 raises [IndexError] on the short coordinate, cell 15 raises it
    on arrays without a time slice, and with a single time slice the loop
    makes no pass, so that cell 21 finds [var1] unbound. *)
Theorem run_fails_early :
  (time_steps cfg < 2)%nat ∨ (length (xf ds) < 2)%nat
  ∨ (length (time ds) < 2)%nat →
  run cfg ds = None.
Proof.
  intros Hshort. destruct (run cfg ds) as [st|] eqn:Hrun; [exfalso|done].
  pose proof (run_time_steps cfg ds st Hrun) as HT.
  apply run_inv in Hrun as (info & _ & _ & _ & Hinfo & _).
  unfold model_output_info in Hinfo.
  destruct (xf ds !! 1%nat) as [xf1|] eqn:Hxf; [|done].
  cbn [mbind option_bind] in Hinfo.
  destruct (xf ds !! 0%nat); [|done]. cbn [mbind option_bind] in Hinfo.
  destruct (time ds !! 1%nat) as [t1|] eqn:Ht; [|done].
  apply lookup_lt_Some in Hxf, Ht. lia.
Qed.

(** The arrays are never resized: when the run ends every array has
    [time_steps] slices of [num_seeds_z * num_seeds_y] entries. *)
Theorem run_well_shaped st :
  run cfg ds = Some st → well_shaped cfg st = true.
Proof.
  intros Hrun. pose proof (run_time_steps cfg ds st Hrun) as HT.
  destruct (run_inv cfg ds st Hrun)
    as (info & st0 & st1 & st2 & _ & H0 & H1 & Hloop & Hfin).
  destruct (initialize_parcels_inv cfg st0 H0) as (_ & _ & _ & Hws0).
  pose proof (initial_height_well_shaped st0 st1 Hws0 ltac:(lia) H1) as Hws1.
  pose proof (calculate_trajectories_well_shaped cfg ds info
                (time_steps cfg - 1) st1 st2 Hws1 ltac:(lia) Hloop) as Hws2.
  destruct (well_shaped_unfold cfg st2 Hws2) as (Hx & Hy & Hz & Hh & Hr & Hv).
  destruct (final_time_step_inv cfg ds st2 st Hfin)
    as (fld & _ & Ex & Ey & Ez & Eh & Er & Ev).
  pose proof (has_shape2_row _ _ _ (time_steps cfg - 1)%nat Hx ltac:(lia)).
  unfold well_shaped. rewrite Ex, Ey, Ez, Eh, Er, Ev.
  rewrite !andb_true_iff. repeat split; try done.
  apply has_shape2_insert; [done|]. simpl_length. lia.
Qed.

End RunOutcome.

(** ** The vertical spacing of cell 11 *)

Section LevelSpacing.

Local Open Scope Z_scope.

Lemma has_shape3_intro nz ny nx (a : field3) :
  length a = nz →
  (∀ k pl, a !! k = Some pl → has_shape2 (ny, nx) pl = true) →
  has_shape3 (nz, ny, nx) a = true.
Proof.
  intros Hlen Hpl. unfold has_shape3. cbn [fst snd].
  apply andb_true_intro. split; [by apply bool_decide_eq_true|].
  apply forallb_forall.
  intros pl [k Hk]%list_elem_of_In%list_elem_of_lookup_1. eauto.
Qed.

(** [vert_resolution] has one level fewer than [zh] (none when [zh] has at
    most one level), the same horizontal shape, and holds at (k, j, i) the
    height of level k + 1 minus the height of level k. *)
Theorem vert_resolution_levels nz ny nx (zh : field3) :
  has_shape3 (nz, ny, nx) zh = true →
  has_shape3 ((nz - 1)%nat, ny, nx) (diff_levels zh) = true
  ∧ ∀ k j i,
      0 ≤ k < Z.of_nat nz - 1 → 0 ≤ j < Z.of_nat ny → 0 ≤ i < Z.of_nat nx →
      get3 (diff_levels zh) k j i = (get3 zh (k + 1) j i - get3 zh k j i)%F.
Proof.
  intros Ha. split; [|intros k j i; by apply get3_diff_levels].
  assert (length zh = nz) as Hlen.
  { apply andb_prop in Ha as [H _]. by apply bool_decide_eq_true in H. }
  apply has_shape3_intro.
  - unfold diff_levels. rewrite length_zip_with, length_drop, length_take. lia.
  - intros k pl Hk. unfold diff_levels in Hk.
    apply lookup_zip_with_Some in Hk as (hi & lo & -> & Hhi & Hlo).
    rewrite lookup_drop in Hhi. apply lookup_take_Some in Hlo as [Hlo Hk].
    pose proof (lookup_lt_Some _ _ _ Hhi) as Hk1.
    pose proof (lookup_lt_Some _ _ _ Hlo) as Hk0.
    destruct (has_shape3_plane nz ny nx zh (1 + k) Ha ltac:(lia)) as [_ Shi].
    destruct (has_shape3_plane nz ny nx zh k Ha ltac:(lia)) as [_ Slo].
    rewrite (list_lookup_total_correct _ _ _ Hhi) in Shi.
    rewrite (list_lookup_total_correct _ _ _ Hlo) in Slo.
    apply has_shape2_intro.
    + rewrite length_zip_with, (has_shape2_length _ _ _ Shi),
        (has_shape2_length _ _ _ Slo). lia.
    + intros j row Hrow.
      apply lookup_zip_with_Some in Hrow as (rh & rl & -> & Hrh & Hrl).
      rewrite length_zip_with, (has_shape2_lookup _ _ _ _ _ Shi Hrh),
        (has_shape2_lookup _ _ _ _ _ Slo Hrl). lia.
Qed.

End LevelSpacing.

Section OutcomeInstances.

Import Scenario.

Lemma run_fails_early_single_slice : run single_slice flat = None.
Proof.
  apply (run_fails_early single_slice flat). left. vm_compute. lia.
Defined.

Lemma run_well_shaped_flat :
  well_shaped (one_parcel "N" (of_Z 2))
    (finished (one_parcel "N" (of_Z 2)) flat) = true.
Proof.
  apply (run_well_shaped (one_parcel "N" (of_Z 2)) flat).
  vm_compute. reflexivity.
Defined.

Lemma vert_resolution_levels_plateau :
  has_shape3 (3, 16, 16)%nat (diff_levels (zh plateau)) = true
  ∧ ∀ k j i : Z,
      (0 ≤ k < 3)%Z → (0 ≤ j < 16)%Z → (0 ≤ i < 16)%Z →
      get3 (diff_levels (zh plateau)) k j i
      = (get3 (zh plateau) (k + 1) j i - get3 (zh plateau) k j i)%F.
Proof.
  apply (vert_resolution_levels 4 16 16 (zh plateau)). reflexivity.
Defined.

End OutcomeInstances.

(** ** The clip over the whole history *)

Section HistoryClip.

Context (cfg : Config) (ds : Dataset) (info : ModelInfo).

Lemma clip_min_idem lo a : clip_min lo (clip_min lo a) = clip_min lo a.
Proof.
  unfold clip_min. destruct (is_nan a) eqn:Hnan; [done|].
  destruct (flt a lo) eqn:Hlt; [|by rewrite Hnan, Hlt].
  destruct lo as [l| | |], a as [q| | |]; simpl in *; try done.
  - apply bool_decide_eq_true in Hlt.
    rewrite bool_decide_eq_false_2; [done|].
    intros Hl. by apply Qclt_not_eq in Hl.
  - rewrite bool_decide_eq_false_2; [done|].
    intros Hl. by apply Qclt_not_eq in Hl.
Qed.

Lemma clip_rows_idem lo (o : option (list fnum)) :
  (λ row : list fnum, clip_min lo <$> row)
    <$> ((λ row : list fnum, clip_min lo <$> row) <$> o)
  = (λ row : list fnum, clip_min lo <$> row) <$> o.
Proof.
  destruct o as [row|]; [|done]. simpl. f_equal.
  rewrite <- list_fmap_compose. apply list_fmap_ext.
  intros i a _. simpl. apply clip_min_idem.
Qed.

(** The clip of a pass runs over every time slice, but after the first pass
    it finds the slices written earlier already clipped: a later pass [t2]
    changes no slice of the vertical index array but the one it writes,
    [t2 + 1]. *)
Theorem reclip_changes_nothing t t2 r st st' st'' :
  step cfg ds info t st = Some st' →
  step cfg ds info t2 st' = Some st'' →
  r ≠ S t2 → zpos st'' !! r = zpos st' !! r.
Proof.
  intros Hstep Hstep2 Hr.
  destruct (step_frame cfg ds info t2 st' st'' r Hstep2)
    as (_ & _ & _ & _ & _ & Fz).
  rewrite Fz by done.
  destruct (step_components cfg ds info t st st' Hstep)
    as (_ & _ & _ & _ & Ez & _).
  rewrite Ez, list_lookup_fmap. apply clip_rows_idem.
Qed.

(** After one pass or more, slice 0 of the vertical index array is the
    clipped slice 0 the loop started from. *)
Lemma calculate_trajectories_zpos_seed n st st' :
  calculate_trajectories cfg ds info (S n) st = Some st' →
  zpos st' !! 0%nat
  = (λ row : list fnum, clip_min (zpos_min cfg) <$> row) <$> zpos st !! 0%nat.
Proof.
  revert st'. induction n as [|n IH]; intros st' Hrun.
  - simpl in Hrun.
    by destruct (step_frame cfg ds info 0 st st' 0%nat Hrun)
      as (_ & _ & _ & _ & _ & ->).
  - change (calculate_trajectories cfg ds info (S (S n)) st)
      with (calculate_trajectories cfg ds info (S n) st
              ≫= step cfg ds info (S n)) in Hrun.
    destruct (calculate_trajectories cfg ds info (S n) st) as [st_n|] eqn:Hn;
      [|done].
    simpl in Hrun.
    destruct (step_frame cfg ds info (S n) st_n st' 0%nat Hrun)
      as (_ & _ & _ & _ & _ & ->); [|lia].
    rewrite (IH st_n eq_refl). apply clip_rows_idem.
Qed.

(** While the loop runs, slices [0 .. k] of the positions and heights and
    slices [0 .. k-1] of the recorded spacing and scalar stay as they were
    after [k] passes. *)
Lemma calculate_trajectories_prefix n k st st' st_k :
  calculate_trajectories cfg ds info n st = Some st' →
  calculate_trajectories cfg ds info k st = Some st_k → (k ≤ n)%nat →
  ∀ r,
    ((r ≤ k)%nat →
     xpos st' !! r = xpos st_k !! r ∧ ypos st' !! r = ypos st_k !! r
     ∧ zpos_heightASL st' !! r = zpos_heightASL st_k !! r)
    ∧ ((r < k)%nat →
       zpos_vert_res st' !! r = zpos_vert_res st_k !! r
       ∧ variable1 st' !! r = variable1 st_k !! r).
Proof.
  revert st'. induction n as [|n IH]; intros st' Hrun Hk Hkn r.
  - assert (k = 0%nat) as -> by lia. simpl in *. by simplify_eq.
  - destruct (decide (k = S n)) as [->|Hne]; [by simplify_eq|].
    simpl in Hrun.
    destruct (calculate_trajectories cfg ds info n st) as [st_n|] eqn:Hn;
      [|done].
    simpl in Hrun.
    destruct (IH st_n eq_refl Hk ltac:(lia) r) as [IH1 IH2].
    destruct (step_frame cfg ds info n st_n st' r Hrun)
      as (Fx & Fy & Fh & Fr & Fv & _).
    split; intros Hr.
    + rewrite Fx, Fy, Fh by lia. by apply IH1.
    + rewrite Fr, Fv by lia. by apply IH2.
Qed.

End HistoryClip.

Section RunHistory.

Context (cfg : Config) (ds : Dataset).

(** When the run ends, slice 0 of x and of y holds the seeds of cell 15 as
    they were set; slice 0 of the vertical index holds the seeds clipped to
    the floor, although the first pass started from the unclipped ones. *)
Theorem run_keeps_seeds st :
  run cfg ds = Some st →
  let parcels := seq 0 (num_parcels cfg) in
  xpos st !! 0%nat = Some ((λ _, seed_x cfg) <$> parcels)
  ∧ ypos st !! 0%nat
    = Some ((λ p, seed_y cfg (p mod num_seeds_y cfg)%nat) <$> parcels)
  ∧ zpos st !! 0%nat
    = Some ((λ p, clip_min (zpos_min cfg)
                    (seed_z cfg (p / num_seeds_y cfg)%nat)) <$> parcels).
Proof.
  intros Hrun parcels. pose proof (run_time_steps cfg ds st Hrun) as HT.
  destruct (run_inv cfg ds st Hrun)
    as (info & st0 & st1 & st2 & _ & H0 & H1 & Hloop & Hfin).
  destruct (initial_height_inv ds st0 st1 H1) as (Ex1 & Ey1 & Ez1 & _).
  destruct (final_time_step_inv cfg ds st2 st Hfin)
    as (fld & _ & Ex & Ey & Ez & _).
  destruct (calculate_trajectories_frame cfg ds info _ st1 st2 0%nat Hloop
              ltac:(by left)) as (Fx & Fy & _).
  replace (time_steps cfg - 1)%nat with (S (time_steps cfg - 2)) in Hloop
    by lia.
  pose proof (calculate_trajectories_zpos_seed cfg ds info _ st1 st2 Hloop)
    as Fz.
  rewrite Ex, Ey, Ez, Fx, Fy, Fz, Ex1, Ey1, Ez1.
  unfold initialize_parcels in H0. rewrite decide_False in H0 by lia.
  injection H0 as <-. cbn [xpos ypos zpos].
  assert (0 < length (zeros cfg))%nat as Hlen
    by (unfold zeros; rewrite length_replicate; lia).
  rewrite !list_lookup_insert_eq by done. cbn [fmap option_fmap option_map].
  repeat split. f_equal. by rewrite <- list_fmap_compose.
Qed.

(** What the finished arrays hold at a slice [t] before the last: the
    scalar sampled from the snapshot of time index [start_time_step - t]
    and the vertical spacing, both at the position the parcels had at the
    start of pass [t]; and the x, y and height the parcels had then. *)
Theorem recorded_slices info t st :
  run cfg ds = Some st → model_output_info ds = Some info →
  (t < time_steps cfg - 1)%nat →
  ∃ st_t,
    state_before cfg ds info t = Some st_t
    ∧ (let crd :=
         coords3 (length (xpos st_t !!! t)) (minus_half (zpos st_t !!! t))
           (minus_half (ypos st_t !!! t)) (minus_half (xpos st_t !!! t)) in
       variable1 st !! t
       = Some (sample3 (grid_shape ds)
                 (scalar ds (var_name1 cfg)
                    (start_time_step cfg - Z.of_nat t)%Z) NaN <$> crd)
       ∧ zpos_vert_res st !! t
         = Some (sample3 ((nz ds - 1)%nat, ny ds, nx ds)
                   (vert_resolution info) NaN <$> crd))
    ∧ xpos st !! t = xpos st_t !! t
    ∧ ypos st !! t = ypos st_t !! t
    ∧ zpos_heightASL st !! t = zpos_heightASL st_t !! t.
Proof.
  intros Hrun Hinfo Ht.
  destruct (run_inv cfg ds st Hrun)
    as (info' & st0 & st1 & st2 & Hinfo' & H0 & H1 & Hloop & Hfin).
  assert (info' = info) as -> by congruence.
  destruct (initialize_parcels_inv cfg st0 H0) as (_ & _ & _ & Hws0).
  pose proof (initial_height_well_shaped cfg ds st0 st1 Hws0 ltac:(lia) H1)
    as Hws1.
  destruct (calculate_trajectories_total cfg ds info t st1) as [st_t Hst].
  destruct (calculate_trajectories_total cfg ds info (S t) st1)
    as [st_t' Hst'].
  pose proof Hst' as Hstep. simpl in Hstep. rewrite Hst in Hstep.
  simpl in Hstep.
  pose proof (calculate_trajectories_well_shaped cfg ds info t st1 st_t Hws1
                ltac:(lia) Hst) as Hws_t.
  destruct (well_shaped_unfold cfg st_t Hws_t) as (_ & _ & _ & _ & Hr & Hv).
  exists st_t. split.
  { unfold state_before. rewrite H0. cbn [mbind option_bind].
    rewrite H1. done. }
  destruct (final_time_step_inv cfg ds st2 st Hfin)
    as (fld & _ & Ex & Ey & _ & Eh & Er & Ev).
  destruct (calculate_trajectories_prefix cfg ds info _ (S t) st1 st2 st_t'
              Hloop Hst' ltac:(lia) t) as [_ P2].
  destruct (P2 ltac:(lia)) as (Pr & Pv).
  destruct (calculate_trajectories_prefix cfg ds info _ t st1 st2 st_t
              Hloop Hst ltac:(lia) t) as [P1 _].
  destruct (P1 ltac:(lia)) as (Px & Py & Ph).
  destruct (step_components cfg ds info t st_t st_t' Hstep)
    as (_ & _ & _ & Sr & _ & Sv & _).
  rewrite Ex, Ey, Eh, Er, Ev.
  rewrite list_lookup_insert_ne by lia.
  rewrite Pr, Pv, Px, Py, Ph, Sr, Sv.
  rewrite !list_lookup_insert_eq
    by (rewrite ?(has_shape2_length _ _ _ Hr), ?(has_shape2_length _ _ _ Hv);
        lia).
  done.
Qed.

End RunHistory.

Section HistoryInstances.

Import Scenario.

Lemma reclip_changes_nothing_plateau :
  zpos (after 2 (one_parcel "Y" (of_Z 2)) plateau) !! 0%nat
  = zpos (after 1 (one_parcel "Y" (of_Z 2)) plateau) !! 0%nat.
Proof.
  refine (reclip_changes_nothing (one_parcel "Y" (of_Z 2)) plateau
            (info plateau) 0 1 0
            (seeded (one_parcel "Y" (of_Z 2)) plateau)
            (after 1 (one_parcel "Y" (of_Z 2)) plateau)
            (after 2 (one_parcel "Y" (of_Z 2)) plateau) _ _ _);
    first [lia | vm_compute; reflexivity].
Defined.

(** A seed below the floor: with the stagger flag set and z = 0.2 the
    finished array shows 0.5 at slice 0. *)
Lemma run_keeps_seeds_low :
  let cfg := one_parcel "Y" (Fin (Q2Qc (2 # 10))) in
  let st := finished cfg flat in
  xpos st !! 0%nat = Some [of_Z 10]
  ∧ ypos st !! 0%nat = Some [of_Z 10]
  ∧ zpos st !! 0%nat = Some [clip_min half (Fin (Q2Qc (2 # 10)))].
Proof.
  apply (run_keeps_seeds (one_parcel "Y" (Fin (Q2Qc (2 # 10)))) flat).
  vm_compute. reflexivity.
Defined.

Lemma recorded_slices_flat :
  let cfg := one_parcel "N" (of_Z 2) in
  let inf := default (info flat) (model_output_info flat) in
  let st := finished cfg flat in
  ∃ st_t,
    state_before cfg flat inf 2 = Some st_t
    ∧ (let crd :=
         coords3 (length (xpos st_t !!! 2%nat))
           (minus_half (zpos st_t !!! 2%nat))
           (minus_half (ypos st_t !!! 2%nat))
           (minus_half (xpos st_t !!! 2%nat)) in
       variable1 st !! 2%nat
       = Some (sample3 (grid_shape flat) (scalar flat "th" (10 - 2)%Z) NaN
                 <$> crd)
       ∧ zpos_vert_res st !! 2%nat
         = Some (sample3 (3, 16, 16)%nat (vert_resolution inf) NaN <$> crd))
    ∧ xpos st !! 2%nat = xpos st_t !! 2%nat
    ∧ ypos st !! 2%nat = ypos st_t !! 2%nat
    ∧ zpos_heightASL st !! 2%nat = zpos_heightASL st_t !! 2%nat.
Proof.
  refine (recorded_slices (one_parcel "N" (of_Z 2)) flat
            (default (info flat) (model_output_info flat)) 2
            (finished (one_parcel "N" (of_Z 2)) flat) _ _ _);
    first [vm_compute; lia | vm_compute; reflexivity].
Defined.

End HistoryInstances.

(** ** Parcels that have left the domain *)

Section NotANumber.

Lemma fmul_nan_r a : (a * NaN)%F = NaN.
Proof. by destruct a. Qed.

Lemma fadd_nan_r a : (a + NaN)%F = NaN.
Proof. by destruct a. Qed.

Lemma fsub_nan_r a : (a - NaN)%F = NaN.
Proof. by destruct a. Qed.

Lemma edge_weight_nan ei i : edge_weight ei i NaN = NaN.
Proof. unfold edge_weight. by destruct (ei =? i)%Z. Qed.

Lemma norm_distance_nan i : norm_distance NaN i = NaN.
Proof. reflexivity. Qed.

Ltac nan_through :=
  repeat first
    [ rewrite norm_distance_nan
    | rewrite edge_weight_nan
    | rewrite fmul_nan_r
    | rewrite fadd_nan_r
    | progress change (NaN * ?b)%F with NaN
    | progress change (NaN + ?b)%F with NaN
    | progress change (one * NaN)%F with NaN ].

Lemma evaluate_linear3_nan shape values c :
  has_nan3 c = true → evaluate_linear3 shape values c = NaN.
Proof.
  destruct shape as [[nz ny] nx], c as [[cz cy] cx].
  unfold has_nan3. cbn [fst snd]. rewrite !orb_true_iff.
  unfold evaluate_linear3. simpl foldl.
  intros [[Hz|Hy]|Hx].
  - destruct cz; try done. by nan_through.
  - destruct cy; try done. by nan_through.
  - destruct cx; try done. by nan_through.
Qed.

Lemma evaluate_linear2_nan shape values (c : fnum * fnum) :
  is_nan c.1 || is_nan c.2 = true → evaluate_linear2 shape values c = NaN.
Proof.
  destruct shape as [ny nx], c as [cy cx].
  cbn [fst snd]. rewrite !orb_true_iff.
  unfold evaluate_linear2. simpl foldl.
  intros [Hy|Hx].
  - destruct cy; try done. by nan_through.
  - destruct cx; try done. by nan_through.
Qed.

(** With the fill value not-a-number, a query point with a coordinate that
    is not a number gives not-a-number, in or out of bounds. *)
Lemma sample3_nan shape values c :
  has_nan3 c = true → sample3 shape values NaN c = NaN.
Proof.
  intros Hnan. unfold sample3.
  destruct (out_of_bounds3 shape c); [done|].
  by apply evaluate_linear3_nan.
Qed.

Lemma sample2_nan shape values (c : fnum * fnum) :
  is_nan c.1 || is_nan c.2 = true → sample2 shape values NaN c = NaN.
Proof.
  intros Hnan. unfold sample2.
  destruct (out_of_bounds2 shape c); [done|].
  by apply evaluate_linear2_nan.
Qed.

Context (cfg : Config) (ds : Dataset) (info : ModelInfo).

(** The query points of parcel [p] in pass [t], by the stagger flag. *)
Lemma velocity_coords_entries st t p :
  well_shaped cfg st = true →
  (t < time_steps cfg)%nat → (p < num_parcels cfg)%nat →
  let x := entry (xpos st) t p in
  let y := entry (ypos st) t p in
  let z := entry (zpos st) t p in
  coord_u cfg st t p
  = ((z - half)%F, (y - half)%F, if stagger_on cfg then x else (x - half)%F)
  ∧ coord_v cfg st t p
    = ((z - half)%F, (if stagger_on cfg then y else (y - half)%F),
       (x - half)%F)
  ∧ coord_w cfg st t p
    = ((if stagger_on cfg then z else (z - half)%F), (y - half)%F,
       (x - half)%F).
Proof.
  intros Hws Ht Hp x y z.
  destruct (well_shaped_unfold cfg st Hws) as (Hx & Hy & Hz & _).
  pose proof (has_shape2_row _ _ _ t Hx Ht) as Lx.
  pose proof (has_shape2_row _ _ _ t Hy Ht) as Ly.
  pose proof (has_shape2_row _ _ _ t Hz Ht) as Lz.
  subst x y z. unfold coord_u, coord_v, coord_w, velocity_coords, entry.
  destruct (stagger_on cfg); cbn [fst snd];
    rewrite !coords3_lookup by (simpl_length; lia);
    by rewrite !minus_half_lookup by lia.
Qed.

(** A pass from a position whose x is not a number: the new x, y and
    vertical index and the recorded scalar are not numbers either. *)
Lemma step_from_nan t p st st' :
  well_shaped cfg st = true →
  (S t < time_steps cfg)%nat → (p < num_parcels cfg)%nat →
  step cfg ds info t st = Some st' →
  entry (xpos st) t p = NaN →
  entry (xpos st') (S t) p = NaN ∧ entry (ypos st') (S t) p = NaN
  ∧ entry (zpos st') (S t) p = NaN ∧ entry (variable1 st') t p = NaN.
Proof.
  intros Hws Ht Hp Hstep Hx.
  destruct (step_entries cfg ds info t p st st' Hws Ht Hp Hstep)
    as (Ex & Ey & _ & _ & Ez & Ev).
  destruct (velocity_coords_entries st t p Hws ltac:(lia) Hp)
    as (_ & Cv & _).
  assert (entry (xpos st') (S t) p = NaN) as Hx' by (by rewrite Ex, Hx).
  split; [done|]. split; [|split].
  - rewrite Ey, sample3_nan.
    + by destruct (entry (ypos st) t p).
    + rewrite Cv, Hx. unfold has_nan3. cbn [fst snd].
      by rewrite !orb_true_r.
  - rewrite Ez, Hx', sample2_nan by (cbn [fst snd]; by rewrite orb_true_r).
    by destruct (entry (zpos_heightASL st') (S t) p).
  - rewrite Ev, sample3_nan; [done|].
    rewrite (coord_scalar cfg) by (done || lia). rewrite Hx.
    unfold has_nan3. cbn [fst snd]. by rewrite !orb_true_r.
Qed.

Lemma entry_lookup (a b : list (list fnum)) r p :
  a !! r = b !! r → entry a r p = entry b r p.
Proof.
  intros H. unfold entry. by rewrite !list_lookup_total_alt, H.
Qed.

(** A parcel that has left the domain does not come back: once its x is
    not a number at a time slice, its x and its y are not numbers at every
    later slice the loop writes. *)
Theorem lost_parcel_stays_lost n k p st st' :
  well_shaped cfg st = true →
  (n < time_steps cfg)%nat → (p < num_parcels cfg)%nat →
  calculate_trajectories cfg ds info n st = Some st' →
  (k ≤ n)%nat → entry (xpos st') k p = NaN →
  ∀ r, (k ≤ r ≤ n)%nat →
       entry (xpos st') r p = NaN
       ∧ (k < r → entry (ypos st') r p = NaN)%nat.
Proof.
  intros Hws Hn Hp. revert st'.
  induction n as [|n IH]; intros st' Hrun Hk Hx r Hr.
  - assert (r = k) as -> by lia. split; [done|lia].
  - simpl in Hrun.
    destruct (calculate_trajectories cfg ds info n st) as [st_n|] eqn:Hn1;
      [|done].
    simpl in Hrun.
    pose proof (calculate_trajectories_well_shaped cfg ds info n st st_n Hws
                  ltac:(lia) Hn1) as Hws_n.
    destruct (decide (k = S n)) as [->|Hne].
    { assert (r = S n) as -> by lia. split; [done|lia]. }
    assert (∀ j, (j ≤ n)%nat →
              entry (xpos st') j p = entry (xpos st_n) j p
              ∧ entry (ypos st') j p = entry (ypos st_n) j p) as Hsame.
    { intros j Hj.
      destruct (step_frame cfg ds info n st_n st' j Hrun) as (Fx & Fy & _).
      split; apply entry_lookup; [apply Fx|apply Fy]; lia. }
    assert (∀ j, (k ≤ j ≤ n)%nat →
              entry (xpos st_n) j p = NaN
              ∧ (k < j → entry (ypos st_n) j p = NaN)%nat) as IH'.
    { apply (IH ltac:(lia) st_n eq_refl); [lia|].
      destruct (Hsame k ltac:(lia)) as [<- _]. done. }
    destruct (decide (r = S n)) as [->|Hrn].
    + destruct (IH' n ltac:(lia)) as [Hxn _].
      destruct (step_from_nan n p st_n st' Hws_n Hn Hp Hrun Hxn)
        as (Hx' & Hy' & _).
      done.
    + destruct (Hsame r ltac:(lia)) as [-> ->]. apply IH'. lia.
Qed.

End NotANumber.

Section NotANumberInstances.

Import Scenario.

(** East of the domain: the parcel is at x = 10.6 after the first pass, its
    query for u is out of bounds, and from slice 2 on it has no position. *)
Lemma lost_parcel_stays_lost_edge :
  let st' := after 4 (one_parcel "N" (of_Z 2)) edge in
  entry (xpos st') 4 0 = NaN
  ∧ (2 < 4 → entry (ypos st') 4 0 = NaN)%nat.
Proof.
  refine (lost_parcel_stays_lost (one_parcel "N" (of_Z 2)) edge (info edge)
            4 2 0 (seeded (one_parcel "N" (of_Z 2)) edge)
            (after 4 (one_parcel "N" (of_Z 2)) edge) _ _ _ _ _ _ 4 _);
    first [lia | vm_compute; lia | vm_compute; reflexivity].
Defined.

End NotANumberInstances.

(** ** The stagger flag and the terrain variable *)

Section Switches.

Context (cfg : Config) (ds : Dataset).

Lemma stagger_off : staggered cfg ≠ "Y" → stagger_on cfg = false.
Proof. intros H. apply not_true_is_false. by rewrite stagger_on_Y. Qed.

Lemma step_flag info t st :
  staggered cfg ≠ "Y" →
  step cfg ds info t st = step (with_staggered "N" cfg) ds info t st.
Proof.
  intros Hflag%stagger_off. unfold step, velocity_coords, zpos_min.
  rewrite Hflag. reflexivity.
Qed.

Lemma calculate_trajectories_flag info n st :
  staggered cfg ≠ "Y" →
  calculate_trajectories cfg ds info n st
  = calculate_trajectories (with_staggered "N" cfg) ds info n st.
Proof.
  intros Hflag. induction n as [|n IH]; [done|].
  cbn [calculate_trajectories]. rewrite IH. clear IH.
  destruct (calculate_trajectories (with_staggered "N" cfg) ds info n st)
    as [st1|]; [|reflexivity].
  cbn [mbind option_bind]. by apply step_flag.
Qed.

(** Only the value ['Y'] switches the staggered coordinates and the floor
    of 0.5 on: with any other value of the flag (['y'], ['yes'], ...) the
    run is the run with ['N']. *)
Theorem staggered_only_Y :
  staggered cfg ≠ "Y" → run cfg ds = run (with_staggered "N" cfg) ds.
Proof.
  intros Hflag. unfold run.
  destruct (model_output_info ds) as [info|]; [|done].
  cbn [mbind option_bind].
  change (initialize_parcels (with_staggered "N" cfg))
    with (initialize_parcels cfg).
  destruct (initialize_parcels cfg) as [st0|]; [|done].
  cbn [mbind option_bind].
  destruct (initial_height ds st0) as [st1|]; [|done].
  cbn [mbind option_bind].
  change (time_steps (with_staggered "N" cfg)) with (time_steps cfg).
  by rewrite calculate_trajectories_flag.
Qed.

(** Without a terrain variable in the output the surface height is 0
    wherever the parcel arrives inside the grid, and the new vertical index
    is the new height over the vertical spacing (floored). *)
Theorem no_terrain_index info t p st st' :
  well_shaped cfg st = true →
  (S t < time_steps cfg)%nat → (p < num_parcels cfg)%nat →
  step cfg ds info t st = Some st' →
  zs ds = None → (2 ≤ ny ds)%nat → (2 ≤ nx ds)%nat →
  in_range2 (ny ds, nx ds)
    ((entry (ypos st') (S t) p - half)%F,
     (entry (xpos st') (S t) p - half)%F) = true →
  entry (zpos st') (S t) p
  = clip_min (zpos_min cfg)
      (entry (zpos_heightASL st') (S t) p / entry (zpos_vert_res st') t p)%F.
Proof.
  intros Hws Ht Hp Hstep Hzs Hny Hnx Hr.
  destruct (step_entries cfg ds info t p st st' Hws Ht Hp Hstep)
    as (_ & _ & _ & _ & Ez & _).
  rewrite Ez. do 2 f_equal.
  simpl in Hr. apply andb_prop in Hr as [Ry Rx].
  destruct (in_range_finite _ _ Ry) as [qy Ey].
  destruct (in_range_finite _ _ Rx) as [qx Ex].
  rewrite Ey, Ex in *.
  unfold sample2, surface_grid. rewrite Hzs. cbn [default].
  assert (out_of_bounds2 (ny ds, nx ds) (Fin qy, Fin qx) = false) as ->.
  { simpl. by rewrite !in_range_in_bounds. }
  pose proof (find_index_range (ny ds) (Fin qy) Hny) as Iy.
  pose proof (find_index_range (nx ds) (Fin qx) Hnx) as Ix.
  pose proof (evaluate_linear2_fin (ny ds) (nx ds)
                (replicate (ny ds) (replicate (nx ds) zero)) qy qx
                (λ _ _, 0%Qc)) as Heval.
  cbv zeta in Heval. rewrite Heval.
  - replace (bilinear _ _ _ _ _) with 0%Qc by (unfold bilinear; ring).
    apply fsub_zero.
  - intros j i Hj Hi.
    apply (get2_full (ny ds) (nx ds) zero); lia.
Qed.

End Switches.

Section SwitchInstances.

Import Scenario.

(** A condition on the state at the start of each of the first two
    passes. *)
Local Ltac every_pass :=
  let k := fresh "k" in
  let st_k := fresh "st_k" in
  let Hk := fresh "Hk" in
  let Hst := fresh "Hst" in
  intros k st_k Hk Hst; destruct k as [|[|k]]; [| |lia];
  vm_compute in Hst; injection Hst as <-; vm_compute; reflexivity.

Lemma zero_w_keeps_height_throughout_plateau :
  let cfg := one_parcel "N" (of_Z 2) in
  entry (zpos_heightASL (after 2 cfg plateau)) 2 0
  = entry (zpos_heightASL (seeded cfg plateau)) 0 0.
Proof.
  refine (zero_w_keeps_height_throughout (one_parcel "N" (of_Z 2)) plateau
            (info plateau) 2 0 (seeded (one_parcel "N" (of_Z 2)) plateau)
            (after 2 (one_parcel "N" (of_Z 2)) plateau)
            _ _ _ _ _ _ _ _ _ _ 2%nat _);
    first [ every_pass | intros k Hk; reflexivity | lia | reflexivity
          | vm_compute; lia | vm_compute; reflexivity ].
Defined.

Lemma staggered_only_Y_lowercase :
  run (one_parcel "y" (of_Z 2)) flat
  = run (with_staggered "N" (one_parcel "y" (of_Z 2))) flat.
Proof.
  apply (staggered_only_Y (one_parcel "y" (of_Z 2)) flat).
  apply (bool_decide_unpack _). vm_compute. exact I.
Defined.

Lemma no_terrain_index_flat :
  let cfg := one_parcel "N" (of_Z 2) in
  let st' := after 1 cfg flat in
  entry (zpos st') 1 0
  = clip_min (zpos_min cfg)
      (entry (zpos_heightASL st') 1 0 / entry (zpos_vert_res st') 0 0)%F.
Proof.
  refine (no_terrain_index (one_parcel "N" (of_Z 2)) flat (info flat) 0 0
            (seeded (one_parcel "N" (of_Z 2)) flat)
            (after 1 (one_parcel "N" (of_Z 2)) flat) _ _ _ _ _ _ _ _);
    first [lia | reflexivity | vm_compute; lia | vm_compute; reflexivity].
Defined.

End SwitchInstances.

(** ** Slices not yet written, and the height of the seeds *)

Section Unwritten.

Context (cfg : Config) (ds : Dataset) (info : ModelInfo).

Lemma clip_min_zero : clip_min (zpos_min cfg) zero = zpos_min cfg.
Proof. unfold zpos_min. by destruct (stagger_on cfg). Qed.

Lemma calculate_trajectories_zpos_later n st st' r :
  calculate_trajectories cfg ds info (S n) st = Some st' → (S n < r)%nat →
  zpos st' !! r
  = (λ row : list fnum, clip_min (zpos_min cfg) <$> row) <$> zpos st !! r.
Proof.
  revert st'. induction n as [|n IH]; intros st' Hrun Hr.
  - simpl in Hrun.
    destruct (step_frame cfg ds info 0 st st' r Hrun)
      as (_ & _ & _ & _ & _ & ->); [done|lia].
  - change (calculate_trajectories cfg ds info (S (S n)) st)
      with (calculate_trajectories cfg ds info (S n) st
              ≫= step cfg ds info (S n)) in Hrun.
    destruct (calculate_trajectories cfg ds info (S n) st) as [st_n|] eqn:Hn;
      [|done].
    simpl in Hrun.
    destruct (step_frame cfg ds info (S n) st_n st' r Hrun)
      as (_ & _ & _ & _ & _ & ->); [|lia].
    rewrite (IH st_n eq_refl) by lia. apply clip_rows_idem.
Qed.

(** A loop stopped after [n ≥ 1] passes: the slices it has not reached
    hold the zeros of the allocation for x, y and the height, but the floor
    of the clip for the vertical index, which is 0.5 with the stagger flag
    set. *)
Theorem unwritten_slices n r st :
  state_before cfg ds info (S n) = Some st →
  (S n < r < time_steps cfg)%nat →
  xpos st !! r = Some (replicate (num_parcels cfg) zero)
  ∧ ypos st !! r = Some (replicate (num_parcels cfg) zero)
  ∧ zpos_heightASL st !! r = Some (replicate (num_parcels cfg) zero)
  ∧ zpos st !! r = Some (replicate (num_parcels cfg) (zpos_min cfg)).
Proof.
  unfold state_before. intros Hst Hr.
  destruct (initialize_parcels cfg) as [st0|] eqn:H0; [|done].
  cbn [mbind option_bind] in Hst.
  destruct (initial_height ds st0) as [st1|] eqn:H1; [|done].
  cbn [mbind option_bind] in Hst.
  destruct (calculate_trajectories_frame cfg ds info _ st1 st r Hst
              ltac:(right; lia)) as (-> & -> & ->).
  rewrite (calculate_trajectories_zpos_later n st1 st r Hst) by lia.
  destruct (initial_height_inv ds st0 st1 H1) as (-> & -> & -> & _ & _ & _ & ->).
  unfold initialize_parcels in H0. case_decide; [done|].
  injection H0 as <-. cbn [xpos ypos zpos zpos_heightASL].
  rewrite !list_lookup_insert_ne by lia.
  unfold zeros. rewrite lookup_replicate_2 by lia.
  repeat split. simpl. f_equal.
  rewrite fmap_replicate. by rewrite clip_min_zero.
Qed.

End Unwritten.

Section UnwrittenInstances.

Import Scenario.

Lemma unwritten_slices_staggered :
  let cfg := one_parcel "Y" (of_Z 2) in
  let st := after 2 cfg plateau in
  xpos st !! 4%nat = Some [zero] ∧ ypos st !! 4%nat = Some [zero]
  ∧ zpos_heightASL st !! 4%nat = Some [zero]
  ∧ zpos st !! 4%nat = Some [half].
Proof.
  refine (unwritten_slices (one_parcel "Y" (of_Z 2)) plateau (info plateau)
            1 4 (after 2 (one_parcel "Y" (of_Z 2)) plateau) _ _);
    first [vm_compute; lia | vm_compute; reflexivity].
Defined.

Lemma seed_height_fill_high :
  entry (zpos_heightASL (seeded (one_parcel "N" (of_Z 5)) flat)) 0 0 = zero.
Proof.
  refine (seed_height_fill (one_parcel "N" (of_Z 5)) flat
            (default Scenario.blank
               (initialize_parcels (one_parcel "N" (of_Z 5))))
            (seeded (one_parcel "N" (of_Z 5)) flat) 0 _ _ _ _);
    first [vm_compute; lia | vm_compute; reflexivity].
Defined.

End UnwrittenInstances.
